(** * reactionGame.ino: a two-player reaction game, embedded and verified

    The sketch is a single thread of control that talks to its surroundings
    through [digitalRead], [millis], [random], [delay], the serial port, the
    LCD and three LED pins.  The embedding keeps the sketch's globals in a
    record, threads it through every function, and records every output as an
    event of a chronological log.  The surroundings are an oracle: the k-th
    question the sketch asks (a pin level, the clock, a random number) is
    answered by the oracle at index k, so that every possible behaviour of
    buttons, clock and random source is some oracle.  Unbounded [while] loops
    and the recursion of [playRound] take a fuel argument; a run that uses it
    up stops where it is and hands back the state reached so far. *)

From Stdlib Require Import ZArith List String Bool Lia DecimalString.
Import ListNotations.
Local Open Scope string_scope.
Local Open Scope Z_scope.

(** ** Constants (lines 7-29) *)

Definition HIGH : bool := true.
Definition LOW : bool := false.

Definition button1Pin : Z := 2.
Definition button2Pin : Z := 4.
Definition ledPins : list Z := [7; 8; 9].
Definition numLeds : nat := 3.
Definition maxRounds : Z := 5.
Definition debounceDelay : Z := 50.
Definition serialPrintInterval : Z := 100.

(** [ledPins[i]] for the loops [for (int i = 0; i < numLeds; i++)]. *)
Definition ledPin (i : nat) : Z := nth i ledPins 0.
Definition ledIndices : list nat := seq 0 numLeds.

(** ** Machine arithmetic

    [int] and [unsigned int] are 16 bits wide on the AVR boards the sketch
    targets; [unsigned long] is 32 bits wide; [uint8_t] is the type of the
    column and row that [LiquidCrystal_I2C::setCursor] takes. *)

Definition int_wrap (z : Z) : Z := (z + 2 ^ 15) mod 2 ^ 16 - 2 ^ 15.
Definition int_incr (z : Z) : Z := int_wrap (z + 1).
Definition uint_wrap (z : Z) : Z := z mod 2 ^ 16.
Definition uint8_wrap (z : Z) : Z := z mod 2 ^ 8.
Definition ulong_wrap (z : Z) : Z := z mod 2 ^ 32.
Definition ulong_sub (a b : Z) : Z := ulong_wrap (a - b).

(** [String(n)] for an [int]. *)
Definition String_of_int (z : Z) : string := NilZero.string_of_int (Z.to_int z).

(** ** Outputs and the surroundings *)

Inductive Event : Type :=
| SerialBegin (baud : Z)
| SerialPrint (msg : string)
| SerialPrintln (msg : string)
| PinMode (pin : Z) (output : bool)
| DigitalWrite (pin : Z) (level : bool)
| LcdInit
| LcdBacklight
| LcdClear
| LcdSetCursor (col row : Z)
| LcdPrint (msg : string)
| Delay (ms : Z)
| Enter_playRound      (* control enters [playRound] *)
| Leave_playRound.     (* control returns from [playRound] *)

(** The oracle: what the k-th question to the surroundings is answered with. *)
Record Env : Type := mkEnv {
  pin_level : nat -> Z -> bool;   (* digitalRead(pin) *)
  clock : nat -> Z;               (* millis(), before truncation to 32 bits *)
  rng : nat -> Z                  (* the raw draw behind random(lo, hi) *)
}.

(** ** The globals (lines 13-29), the question counter and the log *)

Record State : Type := mkState {
  player1Score : Z;
  player2Score : Z;
  roundCount : Z;
  gameActive : bool;
  lastButton1State : bool;
  lastButton2State : bool;
  button1Pressed : bool;
  button2Pressed : bool;
  lastSerialPrint : Z;
  now : nat;
  log : list Event
}.

Definition initState : State :=
  mkState 0 0 0 false LOW LOW false false 0 O [].

Definition set_player1Score (v : Z) (s : State) : State :=
  mkState v (player2Score s) (roundCount s) (gameActive s)
          (lastButton1State s) (lastButton2State s) (button1Pressed s)
          (button2Pressed s) (lastSerialPrint s) (now s) (log s).
Definition set_player2Score (v : Z) (s : State) : State :=
  mkState (player1Score s) v (roundCount s) (gameActive s)
          (lastButton1State s) (lastButton2State s) (button1Pressed s)
          (button2Pressed s) (lastSerialPrint s) (now s) (log s).
Definition set_roundCount (v : Z) (s : State) : State :=
  mkState (player1Score s) (player2Score s) v (gameActive s)
          (lastButton1State s) (lastButton2State s) (button1Pressed s)
          (button2Pressed s) (lastSerialPrint s) (now s) (log s).
Definition set_gameActive (v : bool) (s : State) : State :=
  mkState (player1Score s) (player2Score s) (roundCount s) v
          (lastButton1State s) (lastButton2State s) (button1Pressed s)
          (button2Pressed s) (lastSerialPrint s) (now s) (log s).
Definition set_lastButton1State (v : bool) (s : State) : State :=
  mkState (player1Score s) (player2Score s) (roundCount s) (gameActive s)
          v (lastButton2State s) (button1Pressed s)
          (button2Pressed s) (lastSerialPrint s) (now s) (log s).
Definition set_lastButton2State (v : bool) (s : State) : State :=
  mkState (player1Score s) (player2Score s) (roundCount s) (gameActive s)
          (lastButton1State s) v (button1Pressed s)
          (button2Pressed s) (lastSerialPrint s) (now s) (log s).
Definition set_button1Pressed (v : bool) (s : State) : State :=
  mkState (player1Score s) (player2Score s) (roundCount s) (gameActive s)
          (lastButton1State s) (lastButton2State s) v
          (button2Pressed s) (lastSerialPrint s) (now s) (log s).
Definition set_button2Pressed (v : bool) (s : State) : State :=
  mkState (player1Score s) (player2Score s) (roundCount s) (gameActive s)
          (lastButton1State s) (lastButton2State s) (button1Pressed s)
          v (lastSerialPrint s) (now s) (log s).
Definition set_lastSerialPrint (v : Z) (s : State) : State :=
  mkState (player1Score s) (player2Score s) (roundCount s) (gameActive s)
          (lastButton1State s) (lastButton2State s) (button1Pressed s)
          (button2Pressed s) v (now s) (log s).
Definition set_now (v : nat) (s : State) : State :=
  mkState (player1Score s) (player2Score s) (roundCount s) (gameActive s)
          (lastButton1State s) (lastButton2State s) (button1Pressed s)
          (button2Pressed s) (lastSerialPrint s) v (log s).
Definition set_log (v : list Event) (s : State) : State :=
  mkState (player1Score s) (player2Score s) (roundCount s) (gameActive s)
          (lastButton1State s) (lastButton2State s) (button1Pressed s)
          (button2Pressed s) (lastSerialPrint s) (now s) v.

(** A run either finishes with a value or stops for lack of fuel; both hand
    back the state reached. *)
Inductive Res (A : Type) : Type :=
| Ok (a : A) (s : State)
| OutOfFuel (s : State).
Arguments Ok {A} a s.
Arguments OutOfFuel {A} s.

Definition stateOf {A : Type} (r : Res A) : State :=
  match r with Ok _ s => s | OutOfFuel s => s end.

(** ** The primitives of the Arduino core *)

Definition emit (ev : Event) (s : State) : State :=
  set_log (log s ++ [ev])%list s.

Definition tick (s : State) : State := set_now (S (now s)) s.

Definition digitalRead (e : Env) (pin : Z) (s : State) : bool * State :=
  (pin_level e (now s) pin, tick s).

Definition millis (e : Env) (s : State) : Z * State :=
  (ulong_wrap (clock e (now s)), tick s).

(** [random(lo, hi)] of the core: [lo] when the range is empty, otherwise
    [lo] plus the raw draw reduced modulo [hi - lo]. *)
Definition random (e : Env) (lo hi : Z) (s : State) : Z * State :=
  if hi <=? lo then (lo, s)
  else (lo + rng e (now s) mod (hi - lo), tick s).

Definition delay (ms : Z) (s : State) : State := emit (Delay ms) s.

Definition digitalWrite (pin : Z) (level : bool) (s : State) : State :=
  emit (DigitalWrite pin level) s.

(** ** debounceButton (lines 85-104)

    The two reference parameters are passed in as values and handed back as
    the pair in the middle of the result. *)

Definition debounceButton (e : Env) (pin : Z) (lastState pressedFlag : bool)
    (s : State) : bool * (bool * bool) * State :=
  let '(reading, s) := digitalRead e pin s in
  let state := lastState in
  if negb (Bool.eqb reading lastState) then
    let s := delay debounceDelay s in
    let '(reading, s) := digitalRead e pin s in
    if negb (Bool.eqb reading lastState) then
      let state := reading in
      let pressedFlag := if Bool.eqb state HIGH then true else pressedFlag in
      (pressedFlag, (state, pressedFlag), s)
    else (pressedFlag, (state, pressedFlag), s)
  else (pressedFlag, (state, pressedFlag), s).

(** [debounceButton(button1Pin, lastButton1State, button1Pressed)] *)
Definition debounceButton1 (e : Env) (s : State) : bool * State :=
  let '(r, (l, p), s) :=
    debounceButton e button1Pin (lastButton1State s) (button1Pressed s) s in
  (r, set_button1Pressed p (set_lastButton1State l s)).

(** [debounceButton(button2Pin, lastButton2State, button2Pressed)] *)
Definition debounceButton2 (e : Env) (s : State) : bool * State :=
  let '(r, (l, p), s) :=
    debounceButton e button2Pin (lastButton2State s) (button2Pressed s) s in
  (r, set_button2Pressed p (set_lastButton2State l s)).

(** ** Display helpers (lines 218-238) *)

(** Line 224, [int padding = (16 - message.length()) / 2]: [length()] is an
    [unsigned int], so the subtraction wraps around and the division is
    unsigned; the quotient is stored in an [int]. *)
Definition padding (message : string) : Z :=
  int_wrap
    (Z.quot (uint_wrap (16 - uint_wrap (Z.of_nat (String.length message)))) 2).

(** [setCursor] takes the column as a [uint8_t]. *)
Definition updateDisplay (message : string) (s : State) : State :=
  let s := emit LcdInit s in
  let s := emit LcdBacklight s in
  let s := emit LcdClear s in
  let s := emit (LcdSetCursor (uint8_wrap (padding message)) 0) s in
  let s := emit (LcdPrint message) s in
  emit (SerialPrintln ("LCD Update: " ++ message)) s.

Definition displayScores (s : State) : State :=
  let s := emit (LcdSetCursor 0 1) s in
  let s := emit (LcdPrint "P1:") s in
  let s := emit (LcdPrint (String_of_int (player1Score s))) s in
  let s := emit (LcdSetCursor 8 1) s in
  let s := emit (LcdPrint "P2:") s in
  let s := emit (LcdPrint (String_of_int (player2Score s))) s in
  emit (SerialPrintln ("LCD Scores: P1:" ++ String_of_int (player1Score s)
                       ++ " P2:" ++ String_of_int (player2Score s))) s.

(** The rate-limited report of the two button values; the same block stands
    at lines 59-66, 144-151 and 187-194 with three different labels. *)
Definition printButtonStates (e : Env) (label : string)
    (button1State button2State : bool) (s : State) : State :=
  let '(t, s) := millis e s in
  if serialPrintInterval <=? ulong_sub t (lastSerialPrint s) then
    let s := emit (SerialPrint label) s in
    let s := emit (SerialPrint (if button1State then "1" else "0")) s in
    let s := emit (SerialPrint " | P2: ") s in
    let s := emit (SerialPrint (if button2State then "1" else "0")) s in
    let s := emit (SerialPrintln "") s in
    let '(t, s) := millis e s in
    set_lastSerialPrint t s
  else s.

(** The block that opens [loop] (lines 55-66) and every pass through the two
    polling loops of [playRound] (lines 140-151 and 183-194): sample button 1,
    sample button 2, report. *)
Definition pollButtons (e : Env) (label : string) (s : State)
    : bool * bool * State :=
  let '(button1State, s) := debounceButton1 e s in
  let '(button2State, s) := debounceButton2 e s in
  let s := printButtonStates e label button1State button2State s in
  (button1State, button2State, s).

(** ** endGame (lines 240-255) *)

(** The conditional expression of line 243. *)
Definition finalResult (s : State) : string :=
  if player2Score s <? player1Score s then "Player 1 wins!"
  else if player1Score s <? player2Score s then "Player 2 wins!"
  else "It's a tie!".

Definition endGame (s : State) : State :=
  let s := updateDisplay "End Game" s in
  let s := displayScores s in
  let s := emit (SerialPrintln ("Game Over - " ++ finalResult s)) s in
  let s := delay 10000 s in
  let s := updateDisplay "Start Game" s in
  let s := emit (LcdSetCursor 0 1) s in
  let s := emit (LcdPrint "Press both btns") s in
  let s := emit (SerialPrintln "LCD Reset: Start Game, Press both btns") s in
  let s := set_gameActive false s in
  let s := set_button1Pressed false s in
  let s := set_button2Pressed false s in
  let s := set_lastButton1State LOW s in
  let s := set_lastButton2State LOW s in
  emit (SerialPrintln "Game reset - Press both buttons to start again") s.

(** ** playRound (lines 118-216) *)

(** The four ways in which a round comes to its end: the [if] of line 153,
    of line 164, of line 196 and of line 203. *)
Inductive RoundOutcome : Type :=
| Player1EarlyPress
| Player2EarlyPress
| Player1Reacted
| Player2Reacted.

(** Lines 154-160: player 1 pressed during the countdown. *)
Definition earlyPress1 (s : State) : State :=
  let s := set_player2Score (int_incr (player2Score s)) s in
  let s := updateDisplay "Player 1 Early" s in
  let s := displayScores s in
  let s := emit (SerialPrintln "Player 1 pressed too early - P2 wins round") s in
  let s := delay 2000 s in
  let s := set_button1Pressed false s in
  set_button2Pressed false s.

(** Lines 165-171: player 2 pressed during the countdown. *)
Definition earlyPress2 (s : State) : State :=
  let s := set_player1Score (int_incr (player1Score s)) s in
  let s := updateDisplay "Player 2 Early" s in
  let s := displayScores s in
  let s := emit (SerialPrintln "Player 2 pressed too early - P1 wins round") s in
  let s := delay 2000 s in
  let s := set_button1Pressed false s in
  set_button2Pressed false s.

(** ["Countdown LED " + String(i + 1) + " - P1: "] (line 145). *)
Definition countdownLabel (i : nat) : string :=
  "Countdown LED " ++ String_of_int (Z.of_nat i + 1) ++ " - P1: ".

(** Lines 138-175: the hold of LED [i].  [Some o] when the body left the
    round through an early press (everything up to the re-entry of
    [playRound] is done), [None] when the hold ran out. *)
Fixpoint countdownWhile (fuel : nat) (e : Env) (i : nat)
    (startTime delayTime : Z) (s : State) : Res (option RoundOutcome) :=
  match fuel with
  | O => OutOfFuel s
  | S f =>
    let '(t, s) := millis e s in
    if ulong_sub t startTime <? delayTime then
      let '(button1State, button2State, s) :=
        pollButtons e (countdownLabel i) s in
      if button1State then Ok (Some Player1EarlyPress) (earlyPress1 s)
      else if button2State then Ok (Some Player2EarlyPress) (earlyPress2 s)
      else countdownWhile f e i startTime delayTime s
    else Ok None s
  end.

(** Lines 135-178: the countdown over the LEDs that are still to go. *)
Fixpoint countdownFor (fuel : nat) (e : Env) (todo : list nat) (s : State)
    : Res (option RoundOutcome) :=
  match todo with
  | [] => Ok None s
  | i :: rest =>
    let '(startTime, s) := millis e s in
    let '(delayTime, s) := random e 500 2001 s in
    match countdownWhile fuel e i startTime (ulong_wrap delayTime) s with
    | OutOfFuel s => OutOfFuel s
    | Ok (Some o) s => Ok (Some o) s
    | Ok None s =>
      let s := digitalWrite (ledPin i) LOW s in
      let s := emit (SerialPrintln
                 ("LED " ++ String_of_int (Z.of_nat i + 1) ++ " turned off")) s in
      countdownFor fuel e rest s
    end
  end.

(** Lines 197-200: player 1 is found latched in the reaction phase. *)
Definition reactionWin1 (s : State) : State :=
  let s := set_player1Score (int_incr (player1Score s)) s in
  let s := updateDisplay "Player 1 Won" s in
  let s := displayScores s in
  emit (SerialPrintln
          ("Player 1 wins round " ++ String_of_int (roundCount s))) s.

(** Lines 204-207: player 2 is found latched in the reaction phase. *)
Definition reactionWin2 (s : State) : State :=
  let s := set_player2Score (int_incr (player2Score s)) s in
  let s := updateDisplay "Player 2 Won" s in
  let s := displayScores s in
  emit (SerialPrintln
          ("Player 2 wins round " ++ String_of_int (roundCount s))) s.

(** Lines 181-210: the reaction phase; [winnerDeclared = true] ends the
    loop. *)
Fixpoint reactionWhile (fuel : nat) (e : Env) (s : State) : Res RoundOutcome :=
  match fuel with
  | O => OutOfFuel s
  | S f =>
    let '(button1State, button2State, s) :=
      pollButtons e "Reaction Phase - P1: " s in
    if button1State then Ok Player1Reacted (reactionWin1 s)
    else if button2State then Ok Player2Reacted (reactionWin2 s)
    else reactionWhile f e s
  end.

(** Lines 124-132: count the round, announce it, light all LEDs. *)
Definition roundStart (s : State) : State :=
  let s := set_roundCount (int_incr (roundCount s)) s in
  let s := updateDisplay ("Round " ++ String_of_int (roundCount s)) s in
  let s := displayScores s in
  let s := emit (SerialPrintln
             ("Round " ++ String_of_int (roundCount s) ++ " started")) s in
  fold_left (fun s i => digitalWrite (ledPin i) HIGH s) ledIndices s.

(** Lines 212-214: hold the result, clear both latches. *)
Definition roundHold (s : State) : State :=
  let s := delay 2000 s in
  let s := set_button1Pressed false s in
  set_button2Pressed false s.

(** Lines 124-214: one round, from [roundCount++] up to (and not including)
    the re-entry of [playRound] that ends every path through the body. *)
Definition roundBody (fuel : nat) (e : Env) (s : State) : Res RoundOutcome :=
  let s := roundStart s in
  match countdownFor fuel e ledIndices s with
  | OutOfFuel s => OutOfFuel s
  | Ok (Some o) s => Ok o s
  | Ok None s =>
    match reactionWhile fuel e s with
    | OutOfFuel s => OutOfFuel s
    | Ok o s => Ok o (roundHold s)
    end
  end.

(** Lines 118-216.  The re-entry at lines 161, 172 and 215 is in each case
    the last thing the body does before it returns. *)
Fixpoint playRound (fuel : nat) (e : Env) (s : State) : Res unit :=
  match fuel with
  | O => OutOfFuel s
  | S f =>
    let s := emit Enter_playRound s in
    if maxRounds <=? roundCount s then
      Ok tt (emit Leave_playRound (endGame s))
    else
      match roundBody f e s with
      | OutOfFuel s => OutOfFuel s
      | Ok _ s =>
        match playRound f e s with
        | OutOfFuel s => OutOfFuel s
        | Ok _ s => Ok tt (emit Leave_playRound s)
        end
      end
  end.

(** ** startNewGame (lines 106-116) *)

(** Lines 107-114. *)
Definition resetGame (s : State) : State :=
  let s := set_player1Score 0 s in
  let s := set_player2Score 0 s in
  let s := set_roundCount 0 s in
  let s := set_button1Pressed false s in
  let s := set_button2Pressed false s in
  let s := set_lastButton1State LOW s in
  set_lastButton2State LOW s.

Definition startNewGame (fuel : nat) (e : Env) (s : State) : Res unit :=
  playRound fuel e (resetGame s).

(** ** setup and loop (lines 31-83) *)

Definition setup (s : State) : State :=
  let s := emit (SerialBegin 9600) s in
  let s := emit (SerialPrintln "Reaction Game Started") s in
  let s := emit (PinMode button1Pin false) s in
  let s := emit (PinMode button2Pin false) s in
  let s := fold_left (fun s i =>
             digitalWrite (ledPin i) LOW (emit (PinMode (ledPin i) true) s))
             ledIndices s in
  let s := emit LcdInit s in
  let s := emit LcdBacklight s in
  let s := updateDisplay "Start Game" s in
  let s := emit (LcdSetCursor 0 1) s in
  let s := emit (LcdPrint "Press both btns") s in
  emit (SerialPrintln "LCD Initialized: Start Game, Press both btns") s.

(** Lines 78-80: wait until both buttons are released. *)
Fixpoint waitRelease (fuel : nat) (e : Env) (s : State) : Res unit :=
  match fuel with
  | O => OutOfFuel s
  | S f =>
    let '(r1, s) := digitalRead e button1Pin s in
    if Bool.eqb r1 HIGH then waitRelease f e (delay 10 s)
    else
      let '(r2, s) := digitalRead e button2Pin s in
      if Bool.eqb r2 HIGH then waitRelease f e (delay 10 s)
      else Ok tt s
  end.

(** The condition of line 69. *)
Definition startCondition (s : State) (button1State button2State : bool) : bool :=
  negb (gameActive s) && button1State && button2State.

(** Lines 70-76. *)
Definition beginGame (s : State) : State :=
  let s := set_gameActive true s in
  let s := emit (SerialPrintln "Both buttons pressed - Starting game") s in
  let s := set_button1Pressed false s in
  let s := set_button2Pressed false s in
  let s := set_lastButton1State LOW s in
  set_lastButton2State LOW s.

Definition loop (fuel : nat) (e : Env) (s : State) : Res unit :=
  let '(button1State, button2State, s) := pollButtons e "Main Loop - P1: " s in
  if startCondition s button1State button2State then
    match waitRelease fuel e (beginGame s) with
    | OutOfFuel s => OutOfFuel s
    | Ok _ s => startNewGame fuel e s
    end
  else Ok tt s.

(** The sketch as the core runs it: [setup] once, then [loop] over and over
    ([n] times here). *)
Fixpoint loops (n fuel : nat) (e : Env) (s : State) : Res unit :=
  match n with
  | O => Ok tt s
  | S n' =>
    match loop fuel e s with
    | OutOfFuel s => OutOfFuel s
    | Ok _ s => loops n' fuel e s
    end
  end.

Definition sketch (n fuel : nat) (e : Env) : Res unit :=
  loops n fuel e (setup initState).

(** [n] samples of one channel in a row, each starting from the stable state
    and the latch that the one before left behind. *)
Fixpoint debounceTimes (n : nat) (e : Env) (pin : Z)
    (lastState pressedFlag : bool) (s : State) : bool * bool * State :=
  match n with
  | O => (lastState, pressedFlag, s)
  | S n' =>
    let '(_, (lastState', pressedFlag'), s') :=
      debounceButton e pin lastState pressedFlag s in
    debounceTimes n' e pin lastState' pressedFlag' s'
  end.

(** ** Observations on the log *)

(** Nesting depth of [playRound] after the events of a log, and the highest
    depth the log ever went through. *)
Definition depthStep (d : Z) (ev : Event) : Z :=
  match ev with
  | Enter_playRound => d + 1
  | Leave_playRound => d - 1
  | _ => d
  end.

Definition callDepth (l : list Event) : Z := fold_left depthStep l 0.

Fixpoint peakFrom (d m : Z) (l : list Event) : Z :=
  match l with
  | [] => m
  | ev :: l' => peakFrom (depthStep d ev) (Z.max m (depthStep d ev)) l'
  end.

Definition peakDepth (l : list Event) : Z := peakFrom 0 0 l.

Definition isMarker (ev : Event) : bool :=
  match ev with
  | Enter_playRound | Leave_playRound => true
  | _ => false
  end.

Definition isLedOff (ev : Event) : bool :=
  match ev with
  | DigitalWrite _ level => negb level
  | _ => false
  end.

(** ** Rounds of a match *)

(** Who gets the point. *)
Definition scored1 (s s' : State) : Prop :=
  player1Score s' = int_incr (player1Score s) /\
  player2Score s' = player2Score s.

Definition scored2 (s s' : State) : Prop :=
  player1Score s' = player1Score s /\
  player2Score s' = int_incr (player2Score s).

Definition awarded (o : RoundOutcome) (s s' : State) : Prop :=
  match o with
  | Player1EarlyPress | Player2Reacted => scored2 s s'
  | Player2EarlyPress | Player1Reacted => scored1 s s'
  end.

Definition isEarlyPress (o : RoundOutcome) : bool :=
  match o with
  | Player1EarlyPress | Player2EarlyPress => true
  | Player1Reacted | Player2Reacted => false
  end.

(** The tail of a round by outcome: lines 154-160, 165-171, or the score of
    the reaction phase followed by lines 212-214. *)
Definition roundEnd (o : RoundOutcome) (s : State) : State :=
  match o with
  | Player1EarlyPress => earlyPress1 s
  | Player2EarlyPress => earlyPress2 s
  | Player1Reacted => roundHold (reactionWin1 s)
  | Player2Reacted => roundHold (reactionWin2 s)
  end.


(** [countdownAt e todo0 s0 (i :: rest) startTime delayTime s]: the
    countdown over the LEDs [todo0], entered in state [s0] (line 135),
    stands at the top of the [while] of line 138 in the hold of LED [i],
    in state [s], with [rest] still to go and [startTime] and [delayTime]
    as taken for this hold (lines 136-137).  Every pass so far has found
    the hold not over and no latch set (lines 138-175); the hold of every
    LED before [i] has run out and the LED has been switched off (lines
    176-177). *)
Inductive countdownAt (e : Env) :
    list nat -> State -> list nat -> Z -> Z -> State -> Prop :=
| countdownAt_enter : forall i rest s0,
    let m := millis e s0 in
    let d := random e 500 2001 (snd m) in
    countdownAt e (i :: rest) s0 (i :: rest)
      (fst m) (ulong_wrap (fst d)) (snd d)
| countdownAt_pass : forall todo0 s0 i rest startTime delayTime s,
    countdownAt e todo0 s0 (i :: rest) startTime delayTime s ->
    let m := millis e s in
    let r := pollButtons e (countdownLabel i) (snd m) in
    ulong_sub (fst m) startTime < delayTime ->
    fst r = (false, false) ->
    countdownAt e todo0 s0 (i :: rest) startTime delayTime (snd r)
| countdownAt_next : forall todo0 s0 i j rest startTime delayTime s,
    countdownAt e todo0 s0 (i :: j :: rest) startTime delayTime s ->
    let m := millis e s in
    delayTime <= ulong_sub (fst m) startTime ->
    let s1 := digitalWrite (ledPin i) LOW (snd m) in
    let s2 := emit (SerialPrintln
                ("LED " ++ String_of_int (Z.of_nat i + 1) ++ " turned off"))
                s1 in
    let m' := millis e s2 in
    let d' := random e 500 2001 (snd m') in
    countdownAt e todo0 s0 (j :: rest)
      (fst m') (ulong_wrap (fst d')) (snd d').

(** The pass of the hold of LED [i] that begins in state [s] finds the hold
    not over and a latch set (lines 138-174): [o] is the early press it
    ends with, player 1's if player 1's latch is set, and [s'] the state
    in which the handler ends. *)
Definition earlyPressAt (e : Env) (i : nat) (startTime delayTime : Z)
    (s : State) (o : RoundOutcome) (s' : State) : Prop :=
  let m := millis e s in
  let r := pollButtons e (countdownLabel i) (snd m) in
  ulong_sub (fst m) startTime < delayTime /\
  (fst (fst r) = true \/ snd (fst r) = true) /\
  o = (if fst (fst r) then Player1EarlyPress else Player2EarlyPress) /\
  s' = roundEnd o (snd r).

(** [rounds e n s s']: [playRound] is called in state [s], [n] rounds run
    to their end one after the other, and the re-entry that ends the last of
    them calls [playRound] in state [s']. *)
Inductive rounds (e : Env) : nat -> State -> State -> Prop :=
| rounds_O : forall s, rounds e O s s
| rounds_S : forall n s fuel o s1 s2,
    roundCount s < maxRounds ->
    roundBody fuel e (emit Enter_playRound s) = Ok o s1 ->
    rounds e n s1 s2 ->
    rounds e (S n) s s2.

(** The state of the scores between two rounds of a match. *)
Definition gameInv (s : State) : Prop :=
  0 <= player1Score s /\ 0 <= player2Score s /\
  player1Score s + player2Score s = roundCount s /\
  roundCount s <= maxRounds.

(** What sampling, reporting and display leave alone. *)
Record frame (s s' : State) : Prop := mkFrame {
  frame_p1 : player1Score s' = player1Score s;
  frame_p2 : player2Score s' = player2Score s;
  frame_rc : roundCount s' = roundCount s;
  frame_active : gameActive s' = gameActive s;
  frame_depth : callDepth (log s') = callDepth (log s);
  frame_peak : peakDepth (log s') = peakDepth (log s)
}.

(** [k] returns from [playRound] in a row. *)
Fixpoint leaves (k : nat) (s : State) : State :=
  match k with
  | O => s
  | S k' => emit Leave_playRound (leaves k' s)
  end.

(** The state in which the tail of a round has just given its point. *)
Definition pointGiven (o : RoundOutcome) (s : State) : State :=
  match o with
  | Player1EarlyPress | Player2Reacted =>
      set_player2Score (int_incr (player2Score s)) s
  | Player2EarlyPress | Player1Reacted =>
      set_player1Score (int_incr (player1Score s)) s
  end.

(** What [displayScores] writes to the log. *)
Definition scoreEvents (s : State) : list Event :=
  [ LcdSetCursor 0 1; LcdPrint "P1:";
    LcdPrint (String_of_int (player1Score s));
    LcdSetCursor 8 1; LcdPrint "P2:";
    LcdPrint (String_of_int (player2Score s));
    SerialPrintln ("LCD Scores: P1:" ++ String_of_int (player1Score s)
                   ++ " P2:" ++ String_of_int (player2Score s)) ].

(** What the early-press handler (lines 154-158 or 165-169) writes to the
    log; [s] is the state it ends in. *)
Definition earlyPressEvents (o : RoundOutcome) (s : State) : list Event :=
  ([ LcdInit; LcdBacklight; LcdClear; LcdSetCursor 1 0;
     LcdPrint (match o with
               | Player1EarlyPress => "Player 1 Early"
               | _ => "Player 2 Early" end);
     SerialPrintln (match o with
                    | Player1EarlyPress => "LCD Update: Player 1 Early"
                    | _ => "LCD Update: Player 2 Early" end) ]
   ++ scoreEvents s
   ++ [ SerialPrintln (match o with
                       | Player1EarlyPress =>
                           "Player 1 pressed too early - P2 wins round"
                       | _ => "Player 2 pressed too early - P1 wins round" end);
        Delay 2000 ])%list.

(** What lines 245-248 and 254 write to the log: the idle screen. *)
Definition idleEvents : list Event :=
  [ LcdInit; LcdBacklight; LcdClear; LcdSetCursor 3 0; LcdPrint "Start Game";
    SerialPrintln "LCD Update: Start Game";
    LcdSetCursor 0 1; LcdPrint "Press both btns";
    SerialPrintln "LCD Reset: Start Game, Press both btns";
    SerialPrintln "Game reset - Press both buttons to start again" ].

(** What [endGame] writes to the log, in order. *)
Definition endGameEvents (s : State) : list Event :=
  ([ LcdInit; LcdBacklight; LcdClear; LcdSetCursor 4 0; LcdPrint "End Game";
     SerialPrintln "LCD Update: End Game" ]
   ++ scoreEvents s
   ++ [ SerialPrintln ("Game Over - " ++ finalResult s); Delay 10000 ]
   ++ idleEvents)%list.

(** [n] rounds in a row, each run with the same fuel: the runnable side of
    [rounds]. *)
Fixpoint playRounds (n fuel : nat) (e : Env) (s : State) : option State :=
  match n with
  | O => Some s
  | S n' =>
    if roundCount s <? maxRounds then
      match roundBody fuel e (emit Enter_playRound s) with
      | Ok _ s1 => playRounds n' fuel e s1
      | OutOfFuel _ => None
      end
    else None
  end.

(** ** Some surroundings to run the sketch in *)

(** Both buttons held down for good; the clock stands still. *)
Definition heldEnv : Env :=
  mkEnv (fun _ _ => HIGH) (fun _ => 0) (fun _ => 0).

(** Button 2 held down for good, button 1 never touched. *)
Definition held2Env : Env :=
  mkEnv (fun _ pin => pin =? button2Pin) (fun _ => 0) (fun _ => 0).

(** Button 1 is tapped and let go at once; button 2 goes down some time
    later and stays down. *)
Definition tapThenPressEnv : Env :=
  mkEnv (fun k pin =>
           if pin =? button1Pin then (k <? 2)%nat else (9 <=? k)%nat)
        (fun _ => 0) (fun _ => 0).

(** Both players keep tapping, player 2 in the gaps of player 1; the clock
    moves 100 ms with every question. *)
Definition tapEnv : Env :=
  mkEnv (fun k pin =>
           if pin =? button1Pin then Nat.eqb ((k / 16) mod 4) 1
           else Nat.eqb ((k / 16) mod 4) 3)
        (fun k => 100 * Z.of_nat k) (fun k => Z.of_nat k).

(** The state of the match played in [tapEnv] after [n] rounds. *)
Definition tapMatchAfter (n : nat) : State :=
  match playRounds n 60 tapEnv (resetGame initState) with
  | Some s => s
  | None => initState
  end.

(** The state in which the two passes of [loop] that take in the tap of
    button 1 leave the sketch in [tapThenPressEnv]. *)
Definition idleAfterTap : State :=
  stateOf (loops 2 0 tapThenPressEnv (setup initState)).

(** ** More observations, for the rest of the sketch *)




(** The waits of the sketch: lines 79, 91, 158/169/212 and 244. *)
Definition delays : list Z := [10; debounceDelay; 2000; 10000].

(** Serial and LCD traffic and the waits: what touches no pin. *)
Definition plainEvent (ev : Event) : bool :=
  match ev with
  | SerialPrint _ | SerialPrintln _ => true
  | LcdInit | LcdBacklight | LcdClear => true
  | LcdSetCursor _ _ | LcdPrint _ => true
  | Delay ms => existsb (Z.eqb ms) delays
  | _ => false
  end.

(** What the sketch may do to its surroundings: plain events, writes to the
    LED pins, the pin set-up and serial set-up of [setup]. *)
Definition ioAllowed (ev : Event) : bool :=
  match ev with
  | DigitalWrite pin _ => existsb (Z.eqb pin) ledPins
  | PinMode pin output =>
      if output then existsb (Z.eqb pin) ledPins
      else existsb (Z.eqb pin) [button1Pin; button2Pin]
  | SerialBegin baud => baud =? 9600
  | Enter_playRound | Leave_playRound => true
  | _ => plainEvent ev
  end.

(** [s'] has the log of [s] and, after it, events that all pass [P]. *)
Definition logged (P : Event -> bool) (s s' : State) : Prop :=
  exists evs, log s' = (log s ++ evs)%list /\ forallb P evs = true.

(** The globals of lines 13-29 agree. *)
Definition sameGlobals (s s' : State) : Prop :=
  player1Score s' = player1Score s /\
  player2Score s' = player2Score s /\
  roundCount s' = roundCount s /\
  gameActive s' = gameActive s /\
  lastButton1State s' = lastButton1State s /\
  lastButton2State s' = lastButton2State s /\
  button1Pressed s' = button1Pressed s /\
  button2Pressed s' = button2Pressed s /\
  lastSerialPrint s' = lastSerialPrint s.

(** The counters at any point of a run: within a round the round is counted
    before its point is given. *)
Definition countersInRange (s : State) : Prop :=
  0 <= player1Score s /\ 0 <= player2Score s /\
  0 <= roundCount s <= maxRounds /\
  roundCount s - 1 <= player1Score s + player2Score s <= roundCount s.

(** A bounce on one pin: HIGH at the very first question, LOW ever after. *)
Definition glitchEnv : Env :=
  mkEnv (fun k _ => Nat.eqb k 0) (fun _ => 0) (fun _ => 0).

(** Nobody touches a button; the clock moves 100 ms with every question. *)
Definition quietEnv : Env :=
  mkEnv (fun _ _ => LOW) (fun k => 100 * Z.of_nat k) (fun _ => 0).

(** Both buttons are down for the first six questions and up ever after. *)
Definition letGoEnv : Env :=
  mkEnv (fun k _ => (k <? 6)%nat) (fun _ => 0) (fun _ => 0).

(** Between two passes of [loop]: no match is on, and the counters are
    those of a sketch that has not played yet or of a match played to its
    end. *)
Definition idleInv (s : State) : Prop :=
  gameInv s /\ gameActive s = false /\
  (roundCount s = 0 \/ roundCount s = maxRounds).

(** Nobody presses anew: both latches are clear and, from now on, each pin
    reads the stable state of its button (up, or held down since before). *)
Definition calm (e : Env) (s : State) : Prop :=
  button1Pressed s = false /\ button2Pressed s = false /\
  forall k, (now s <= k)%nat ->
    pin_level e k button1Pin = lastButton1State s /\
    pin_level e k button2Pin = lastButton2State s.

(** The two channels of the debouncer agree. *)
Definition sameButtons (s s' : State) : Prop :=
  button1Pressed s' = button1Pressed s /\
  button2Pressed s' = button2Pressed s /\
  lastButton1State s' = lastButton1State s /\
  lastButton2State s' = lastButton2State s.


(** Button 1 (resp. 2) is not pressed anew: its latch is clear and its pin
    keeps reading its stable state. *)
Definition idle1 (e : Env) (s : State) : Prop :=
  button1Pressed s = false /\
  forall k, (now s <= k)%nat -> pin_level e k button1Pin = lastButton1State s.

Definition idle2 (e : Env) (s : State) : Prop :=
  button2Pressed s = false /\
  forall k, (now s <= k)%nat -> pin_level e k button2Pin = lastButton2State s.

(** Player 1 leans on the button, going down and up with every question;
    nobody touches button 2. *)
Definition soloEnv : Env :=
  mkEnv (fun k pin => (pin =? button1Pin) && Nat.even k)
        (fun k => 100 * Z.of_nat k) (fun _ => 0).
(** * Proofs *)

Arguments int_incr : simpl never.
Arguments int_wrap : simpl never.
Arguments ulong_wrap : simpl never.
Arguments ulong_sub : simpl never.
Arguments String_of_int : simpl never.
Arguments Z.quot : simpl never.

(** Reduces projections of the state through the primitive steps, and
    nothing else. *)
Ltac state_cbn :=
  cbn [player1Score player2Score roundCount gameActive lastButton1State
       lastButton2State button1Pressed button2Pressed lastSerialPrint now log
       set_player1Score set_player2Score set_roundCount set_gameActive
       set_lastButton1State set_lastButton2State set_button1Pressed
       set_button2Pressed set_lastSerialPrint set_now set_log
       emit tick delay digitalWrite updateDisplay displayScores].

(** ** What [emit] leaves alone *)

Lemma roundCount_emit : forall ev s, roundCount (emit ev s) = roundCount s.
Proof. reflexivity. Qed.

(** ** Machine arithmetic *)

Lemma int_incr_small : forall z, -1 <= z < 32767 -> int_incr z = z + 1.
Proof.
  intros z Hz. unfold int_incr, int_wrap.
  change (2 ^ 15) with 32768. change (2 ^ 16) with 65536.
  rewrite Z.mod_small; lia.
Qed.

(** ** Call depth of a log *)

Lemma peakFrom_app : forall l1 l2 d m,
  peakFrom d m (l1 ++ l2) =
  peakFrom (fold_left depthStep l1 d) (peakFrom d m l1) l2.
Proof.
  induction l1 as [|ev l1 IH]; intros l2 d m; simpl.
  - reflexivity.
  - apply IH.
Qed.

Lemma peakFrom_bounds : forall l d m,
  d <= m -> fold_left depthStep l d <= peakFrom d m l /\ m <= peakFrom d m l.
Proof.
  induction l as [|ev l IH]; intros d m Hdm; simpl.
  - lia.
  - destruct (IH (depthStep d ev) (Z.max m (depthStep d ev))) as [H1 H2]; lia.
Qed.

Lemma callDepth_le_peakDepth : forall l, callDepth l <= peakDepth l.
Proof.
  intros l. unfold callDepth, peakDepth.
  apply (peakFrom_bounds l 0 0). lia.
Qed.

Lemma callDepth_snoc : forall l ev,
  callDepth (l ++ [ev]) = depthStep (callDepth l) ev.
Proof.
  intros l ev. unfold callDepth. rewrite fold_left_app. reflexivity.
Qed.

Lemma peakDepth_snoc : forall l ev,
  peakDepth (l ++ [ev]) = Z.max (peakDepth l) (depthStep (callDepth l) ev).
Proof.
  intros l ev. unfold peakDepth, callDepth. rewrite peakFrom_app. reflexivity.
Qed.

Lemma depthStep_plain : forall d ev, isMarker ev = false -> depthStep d ev = d.
Proof. intros d [] H; simpl in *; congruence. Qed.

(** ** Frames *)

Lemma frame_refl : forall s, frame s s.
Proof. intros s. constructor; reflexivity. Qed.

Lemma frame_trans : forall s1 s2 s3, frame s1 s2 -> frame s2 s3 -> frame s1 s3.
Proof.
  intros s1 s2 s3 [] []. constructor; congruence.
Qed.

Lemma frame_emit : forall ev s, isMarker ev = false -> frame s (emit ev s).
Proof.
  intros ev s H. constructor; simpl; try reflexivity.
  - rewrite callDepth_snoc. apply depthStep_plain, H.
  - rewrite peakDepth_snoc, depthStep_plain by exact H.
    pose proof (callDepth_le_peakDepth (log s)). lia.
Qed.

Lemma frame_same_log : forall s s',
  player1Score s' = player1Score s -> player2Score s' = player2Score s ->
  roundCount s' = roundCount s -> gameActive s' = gameActive s ->
  log s' = log s -> frame s s'.
Proof.
  intros s s' H1 H2 H3 H4 H5. constructor; congruence.
Qed.

Lemma frame_set_lastButton1State : forall v s,
  frame s (set_lastButton1State v s).
Proof. intros. apply frame_same_log; reflexivity. Qed.

Lemma frame_set_lastButton2State : forall v s,
  frame s (set_lastButton2State v s).
Proof. intros. apply frame_same_log; reflexivity. Qed.

Lemma frame_set_button1Pressed : forall v s, frame s (set_button1Pressed v s).
Proof. intros. apply frame_same_log; reflexivity. Qed.

Lemma frame_set_button2Pressed : forall v s, frame s (set_button2Pressed v s).
Proof. intros. apply frame_same_log; reflexivity. Qed.

Lemma frame_set_lastSerialPrint : forall v s,
  frame s (set_lastSerialPrint v s).
Proof. intros. apply frame_same_log; reflexivity. Qed.

Lemma frame_tick : forall s, frame s (tick s).
Proof. intros. apply frame_same_log; reflexivity. Qed.

(** One primitive step that leaves the frame alone. *)
Ltac frame_prim :=
  first [ apply frame_emit; reflexivity
        | apply frame_tick
        | apply frame_set_lastButton1State
        | apply frame_set_lastButton2State
        | apply frame_set_button1Pressed
        | apply frame_set_button2Pressed
        | apply frame_set_lastSerialPrint ].

(** Peels a pipeline of primitive steps off the right-hand state. *)
Ltac frame_chain :=
  cbv zeta; unfold delay, digitalWrite;
  lazymatch goal with
  | |- frame ?a ?b =>
      first
        [ constr_eq a b; apply frame_refl
        | lazymatch b with
          | ?f ?x => apply (frame_trans a x); [ frame_chain | frame_prim ]
          end ]
  end.

Lemma frame_delay : forall ms s, frame s (delay ms s).
Proof. intros. frame_chain. Qed.

Lemma frame_digitalRead : forall e pin s, frame s (snd (digitalRead e pin s)).
Proof. intros. apply frame_tick. Qed.

Lemma frame_millis : forall e s, frame s (snd (millis e s)).
Proof. intros. apply frame_tick. Qed.

Lemma frame_random : forall e lo hi s, frame s (snd (random e lo hi s)).
Proof.
  intros. unfold random. destruct (hi <=? lo); simpl.
  - apply frame_refl.
  - apply frame_tick.
Qed.

Lemma frame_updateDisplay : forall m s, frame s (updateDisplay m s).
Proof. intros. unfold updateDisplay. frame_chain. Qed.

Lemma frame_displayScores : forall s, frame s (displayScores s).
Proof. intros. unfold displayScores. frame_chain. Qed.

Lemma frame_debounceButton : forall e pin l p s,
  frame s (snd (debounceButton e pin l p s)).
Proof.
  intros. unfold debounceButton, digitalRead, delay.
  destruct (negb (eqb (pin_level e (now s) pin) l)); simpl.
  - match goal with |- context [negb ?b] => destruct (negb b) end; simpl;
      frame_chain.
  - frame_chain.
Qed.

Lemma frame_debounceButton1 : forall e s, frame s (snd (debounceButton1 e s)).
Proof.
  intros e s. unfold debounceButton1.
  pose proof (frame_debounceButton e button1Pin (lastButton1State s)
                (button1Pressed s) s) as H.
  destruct (debounceButton _ _ _ _ _) as [[r [l p]] s1]. simpl in *.
  eapply frame_trans; [ exact H | frame_chain ].
Qed.

Lemma frame_debounceButton2 : forall e s, frame s (snd (debounceButton2 e s)).
Proof.
  intros e s. unfold debounceButton2.
  pose proof (frame_debounceButton e button2Pin (lastButton2State s)
                (button2Pressed s) s) as H.
  destruct (debounceButton _ _ _ _ _) as [[r [l p]] s1]. simpl in *.
  eapply frame_trans; [ exact H | frame_chain ].
Qed.

Lemma frame_printButtonStates : forall e label b1 b2 s,
  frame s (printButtonStates e label b1 b2 s).
Proof.
  intros. unfold printButtonStates.
  pose proof (frame_millis e s) as F.
  destruct (millis e s) as [t s1]. simpl in F.
  destruct (serialPrintInterval <=? ulong_sub t (lastSerialPrint s1));
    [ | exact F ].
  match goal with
  | |- context [millis e ?x] =>
      pose proof (frame_millis e x) as F2;
      assert (F1 : frame s1 x) by frame_chain;
      destruct (millis e x) as [t2 s2]
  end.
  simpl in F2.
  eapply frame_trans; [ exact F | ].
  eapply frame_trans; [ exact F1 | ].
  eapply frame_trans; [ exact F2 | frame_chain ].
Qed.

(** What a sample hands back is the latch it leaves behind. *)
Lemma debounceButton_returns_latch : forall e pin l p s,
  fst (fst (debounceButton e pin l p s)) =
  snd (snd (fst (debounceButton e pin l p s))).
Proof.
  intros. unfold debounceButton, digitalRead.
  destruct (negb (eqb (pin_level e (now s) pin) l)); simpl; [ | reflexivity ].
  match goal with |- context [negb ?b] => destruct (negb b) end; reflexivity.
Qed.

(** Sampling touches only the clock of questions and the log. *)
Lemma debounceButton_globals : forall e pin l p s,
  let s' := snd (debounceButton e pin l p s) in
  button1Pressed s' = button1Pressed s /\
  button2Pressed s' = button2Pressed s /\
  lastButton1State s' = lastButton1State s /\
  lastButton2State s' = lastButton2State s.
Proof.
  intros. subst s'. unfold debounceButton, digitalRead.
  destruct (negb (eqb (pin_level e (now s) pin) l)); simpl; [ | tauto ].
  match goal with |- context [negb ?b] => destruct (negb b) end; simpl; tauto.
Qed.

Lemma printButtonStates_globals : forall e label b1 b2 s,
  let s' := printButtonStates e label b1 b2 s in
  button1Pressed s' = button1Pressed s /\
  button2Pressed s' = button2Pressed s /\
  lastButton1State s' = lastButton1State s /\
  lastButton2State s' = lastButton2State s.
Proof.
  intros. subst s'. unfold printButtonStates, millis.
  cbn [fst snd].
  match goal with |- context [if ?c then _ else _] => destruct c end;
    cbn; tauto.
Qed.

(** A poll leaves the scores alone and reports exactly the two latches. *)
Lemma pollButtons_spec : forall e label s b1 b2 s',
  pollButtons e label s = (b1, b2, s') ->
  frame s s' /\ b1 = button1Pressed s' /\ b2 = button2Pressed s'.
Proof.
  intros e label s b1 b2 s' H. unfold pollButtons in H.
  pose proof (frame_debounceButton1 e s) as F1.
  unfold debounceButton1 in H, F1.
  pose proof (debounceButton_returns_latch e button1Pin (lastButton1State s)
                (button1Pressed s) s) as R1.
  destruct (debounceButton e button1Pin _ _ s) as [[r1 [l1 p1]] s1].
  simpl in R1, F1. subst r1.
  remember (set_button1Pressed p1 (set_lastButton1State l1 s1)) as t1 eqn:Et1.
  pose proof (frame_debounceButton2 e t1) as F2.
  unfold debounceButton2 in H, F2.
  pose proof (debounceButton_returns_latch e button2Pin (lastButton2State t1)
                (button2Pressed t1) t1) as R2.
  pose proof (debounceButton_globals e button2Pin (lastButton2State t1)
                (button2Pressed t1) t1) as G2.
  destruct (debounceButton e button2Pin _ _ t1) as [[r2 [l2 p2]] s2].
  simpl in R2, F2, G2. subst r2.
  remember (set_button2Pressed p2 (set_lastButton2State l2 s2)) as t2 eqn:Et2.
  pose proof (frame_printButtonStates e label p1 p2 t2) as F3.
  pose proof (printButtonStates_globals e label p1 p2 t2) as G3.
  simpl in G3.
  injection H as <- <- <-.
  split; [ | split ].
  - eapply frame_trans; [ eapply frame_trans; [ exact F1 | exact F2 ] | exact F3 ].
  - destruct G3 as [-> _]. subst t2. simpl. destruct G2 as [-> _].
    subst t1. reflexivity.
  - destruct G3 as [_ [-> _]]. subst t2. reflexivity.
Qed.

(** ** The straight-line pieces of a round *)

Lemma frame_fold_leds : forall (f : nat -> State -> State) l s,
  (forall i s0, frame s0 (f i s0)) ->
  frame s (fold_left (fun s0 i => f i s0) l s).
Proof.
  intros f l. induction l as [|i l IH]; intros s Hf; simpl.
  - apply frame_refl.
  - eapply frame_trans; [ apply Hf | apply IH, Hf ].
Qed.

(** Peels a pipeline that also runs through the display helpers. *)
Ltac frame_pipe :=
  cbv zeta; unfold delay, digitalWrite;
  lazymatch goal with
  | |- frame ?a ?b =>
      first
        [ constr_eq a b; apply frame_refl
        | lazymatch b with
          | updateDisplay _ ?x =>
              apply (frame_trans a x); [ frame_pipe | apply frame_updateDisplay ]
          | displayScores ?x =>
              apply (frame_trans a x); [ frame_pipe | apply frame_displayScores ]
          | fold_left _ _ ?x =>
              apply (frame_trans a x);
              [ frame_pipe
              | apply (frame_fold_leds (fun i s0 => emit _ s0));
                intros; apply frame_emit; reflexivity ]
          | ?f ?x => apply (frame_trans a x); [ frame_pipe | frame_prim ]
          end ]
  end.

Lemma roundStart_frame : forall s,
  frame (set_roundCount (int_incr (roundCount s)) s) (roundStart s).
Proof. intros s. unfold roundStart. frame_pipe. Qed.

Lemma roundStart_spec : forall s,
  roundCount (roundStart s) = int_incr (roundCount s) /\
  player1Score (roundStart s) = player1Score s /\
  player2Score (roundStart s) = player2Score s /\
  gameActive (roundStart s) = gameActive s /\
  callDepth (log (roundStart s)) = callDepth (log s) /\
  peakDepth (log (roundStart s)) = peakDepth (log s).
Proof.
  intros s. destruct (roundStart_frame s) as [F1 F2 F3 F4 F5 F6].
  rewrite F1, F2, F3, F4, F5, F6. simpl. tauto.
Qed.

Lemma roundHold_spec : forall s,
  frame s (roundHold s) /\
  button1Pressed (roundHold s) = false /\ button2Pressed (roundHold s) = false.
Proof.
  intros s. unfold roundHold. split; [ frame_pipe | split; reflexivity ].
Qed.

Lemma roundEnd_frame : forall o s, frame (pointGiven o s) (roundEnd o s).
Proof.
  intros o s.
  destruct o; unfold roundEnd, pointGiven, earlyPress1, earlyPress2,
    reactionWin1, reactionWin2, roundHold; frame_pipe.
Qed.

(** The tail of a round gives exactly one point, as the outcome says, and
    leaves everything else as it found it. *)
Lemma roundEnd_spec : forall o s,
  awarded o s (roundEnd o s) /\
  roundCount (roundEnd o s) = roundCount s /\
  gameActive (roundEnd o s) = gameActive s /\
  callDepth (log (roundEnd o s)) = callDepth (log s) /\
  peakDepth (log (roundEnd o s)) = peakDepth (log s) /\
  button1Pressed (roundEnd o s) = false /\
  button2Pressed (roundEnd o s) = false.
Proof.
  intros o s. destruct (roundEnd_frame o s) as [F1 F2 F3 F4 F5 F6].
  assert (L : button1Pressed (roundEnd o s) = false /\
              button2Pressed (roundEnd o s) = false)
    by (destruct o; split; reflexivity).
  unfold awarded, scored1, scored2.
  rewrite F3, F4, F5, F6. clear F3 F4 F5 F6.
  destruct o; rewrite F1, F2; cbn [pointGiven]; repeat split;
    try reflexivity; apply L.
Qed.

Lemma reactionWin1_scored : forall s, scored1 s (reactionWin1 s).
Proof.
  intros s.
  assert (F : frame (set_player1Score (int_incr (player1Score s)) s)
                    (reactionWin1 s))
    by (unfold reactionWin1; frame_pipe).
  destruct F as [F1 F2 _ _ _ _]. unfold scored1. rewrite F1, F2.
  split; reflexivity.
Qed.

(** ** The loops of a round *)

Arguments millis : simpl never.
Arguments random : simpl never.
Arguments pollButtons : simpl never.
Arguments roundStart : simpl never.
Arguments roundHold : simpl never.
Arguments earlyPress1 : simpl never.
Arguments earlyPress2 : simpl never.
Arguments reactionWin1 : simpl never.
Arguments reactionWin2 : simpl never.
Arguments endGame : simpl never.

Lemma countdownWhile_shape : forall fuel e i startTime delayTime s,
  match countdownWhile fuel e i startTime delayTime s with
  | Ok None s' => frame s s'
  | Ok (Some o) s' =>
      isEarlyPress o = true /\ exists s3, frame s s3 /\ s' = roundEnd o s3
  | OutOfFuel s' => frame s s'
  end.
Proof.
  induction fuel as [|f IH]; intros e i startTime delayTime s;
    cbn [countdownWhile].
  - apply frame_refl.
  - pose proof (frame_millis e s) as Fm.
    destruct (millis e s) as [t s1]. simpl in Fm.
    destruct (ulong_sub t startTime <? delayTime); [ | exact Fm ].
    destruct (pollButtons e (countdownLabel i) s1) as [[b1 b2] s2] eqn:P.
    apply pollButtons_spec in P. destruct P as [Fp _].
    assert (F : frame s s2) by (eapply frame_trans; eassumption).
    destruct b1; [ | destruct b2 ].
    + split; [ reflexivity | exists s2; split; [ exact F | reflexivity ] ].
    + split; [ reflexivity | exists s2; split; [ exact F | reflexivity ] ].
    + specialize (IH e i startTime delayTime s2).
      destruct (countdownWhile f e i startTime delayTime s2) as [[o|] s'|s'].
      * destruct IH as [He [s3 [F3 E3]]].
        split; [ exact He | exists s3; split; [ | exact E3 ] ].
        eapply frame_trans; eassumption.
      * eapply frame_trans; eassumption.
      * eapply frame_trans; eassumption.
Qed.

Lemma countdownFor_shape : forall fuel e todo s,
  match countdownFor fuel e todo s with
  | Ok None s' => frame s s'
  | Ok (Some o) s' =>
      isEarlyPress o = true /\ exists s3, frame s s3 /\ s' = roundEnd o s3
  | OutOfFuel s' => frame s s'
  end.
Proof.
  intros fuel e todo. induction todo as [|i rest IH]; intros s;
    cbn [countdownFor].
  - apply frame_refl.
  - pose proof (frame_millis e s) as Fm.
    destruct (millis e s) as [startTime s1]. simpl in Fm.
    pose proof (frame_random e 500 2001 s1) as Fr.
    destruct (random e 500 2001 s1) as [delayTime s2]. simpl in Fr.
    assert (F : frame s s2) by (eapply frame_trans; eassumption).
    pose proof (countdownWhile_shape fuel e i startTime
                  (ulong_wrap delayTime) s2) as W.
    destruct (countdownWhile fuel e i startTime (ulong_wrap delayTime) s2)
      as [[o|] s3|s3].
    + destruct W as [He [s4 [F4 E4]]].
      split; [ exact He | exists s4; split; [ | exact E4 ] ].
      eapply frame_trans; eassumption.
    + match goal with
      | |- context [countdownFor fuel e rest ?x] =>
          assert (F5 : frame s x)
            by (eapply frame_trans;
                [ eapply frame_trans; [ exact F | exact W ] | frame_chain ]);
          specialize (IH x);
          destruct (countdownFor fuel e rest x) as [[o|] s'|s']
      end.
      * destruct IH as [He [s4 [F4 E4]]].
        split; [ exact He | exists s4; split; [ | exact E4 ] ].
        eapply frame_trans; eassumption.
      * eapply frame_trans; eassumption.
      * eapply frame_trans; eassumption.
    + eapply frame_trans; eassumption.
Qed.

Lemma reactionWhile_shape : forall fuel e s,
  match reactionWhile fuel e s with
  | Ok o s' =>
      isEarlyPress o = false /\
      exists s3, frame s s3 /\ roundHold s' = roundEnd o s3
  | OutOfFuel s' => frame s s'
  end.
Proof.
  induction fuel as [|f IH]; intros e s; cbn [reactionWhile].
  - apply frame_refl.
  - destruct (pollButtons e "Reaction Phase - P1: " s) as [[b1 b2] s2] eqn:P.
    apply pollButtons_spec in P. destruct P as [Fp _].
    destruct b1; [ | destruct b2 ].
    + split; [ reflexivity | exists s2; split; [ exact Fp | reflexivity ] ].
    + split; [ reflexivity | exists s2; split; [ exact Fp | reflexivity ] ].
    + specialize (IH e s2).
      destruct (reactionWhile f e s2) as [o s'|s'].
      * destruct IH as [He [s3 [F3 E3]]].
        split; [ exact He | exists s3; split; [ | exact E3 ] ].
        eapply frame_trans; eassumption.
      * eapply frame_trans; eassumption.
Qed.

(** Every round that comes to its end is the start of the round, then
    sampling and display only, then the tail that belongs to its outcome. *)
Lemma roundBody_shape : forall fuel e s,
  match roundBody fuel e s with
  | Ok o s' => exists s3, frame (roundStart s) s3 /\ s' = roundEnd o s3
  | OutOfFuel s' => frame (roundStart s) s'
  end.
Proof.
  intros fuel e s. unfold roundBody. cbv zeta.
  pose proof (countdownFor_shape fuel e ledIndices (roundStart s)) as C.
  destruct (countdownFor fuel e ledIndices (roundStart s)) as [[o|] s1|s1].
  - destruct C as [_ [s3 [F3 E3]]]. exists s3. split; assumption.
  - pose proof (reactionWhile_shape fuel e s1) as R.
    destruct (reactionWhile fuel e s1) as [o s2|s2].
    + destruct R as [_ [s3 [F3 E3]]]. exists s3.
      split; [ eapply frame_trans; eassumption | exact E3 ].
    + eapply frame_trans; eassumption.
  - exact C.
Qed.

Lemma roundBody_spec : forall fuel e s,
  match roundBody fuel e s with
  | Ok o s' =>
      roundCount s' = int_incr (roundCount s) /\
      awarded o s s' /\
      gameActive s' = gameActive s /\
      callDepth (log s') = callDepth (log s) /\
      peakDepth (log s') = peakDepth (log s) /\
      button1Pressed s' = false /\ button2Pressed s' = false
  | OutOfFuel s' =>
      roundCount s' = int_incr (roundCount s) /\
      player1Score s' = player1Score s /\
      player2Score s' = player2Score s /\
      callDepth (log s') = callDepth (log s) /\
      peakDepth (log s') = peakDepth (log s)
  end.
Proof.
  intros fuel e s. pose proof (roundBody_shape fuel e s) as H.
  destruct (roundStart_spec s) as [S1 [S2 [S3 [S4 [S5 S6]]]]].
  destruct (roundBody fuel e s) as [o s'|s'].
  - destruct H as [s3 [[F1 F2 F3 F4 F5 F6] ->]].
    destruct (roundEnd_spec o s3) as [A [E1 [E2 [E3 [E4 [E5 E6]]]]]].
    repeat split; try congruence.
    unfold awarded, scored1, scored2 in *.
    destruct o; destruct A as [A1 A2]; split; congruence.
  - destruct H as [F1 F2 F3 F4 F5 F6]. repeat split; congruence.
Qed.

(** ** More fuel never changes a finished run *)

Lemma countdownWhile_more_fuel : forall f1 f2 e i startTime delayTime s r s',
  (f1 <= f2)%nat ->
  countdownWhile f1 e i startTime delayTime s = Ok r s' ->
  countdownWhile f2 e i startTime delayTime s = Ok r s'.
Proof.
  induction f1 as [|f1 IH]; intros f2 e i startTime delayTime s r s' Hle H.
  - discriminate H.
  - destruct f2 as [|f2]; [ lia | ].
    cbn [countdownWhile] in *.
    destruct (millis e s) as [t s1].
    destruct (ulong_sub t startTime <? delayTime); [ | exact H ].
    destruct (pollButtons e (countdownLabel i) s1) as [[b1 b2] s2].
    destruct b1; [ exact H | ].
    destruct b2; [ exact H | ].
    apply IH; [ lia | exact H ].
Qed.

Lemma countdownFor_more_fuel : forall f1 f2 e todo s r s',
  (f1 <= f2)%nat ->
  countdownFor f1 e todo s = Ok r s' ->
  countdownFor f2 e todo s = Ok r s'.
Proof.
  intros f1 f2 e todo. induction todo as [|i rest IH]; intros s r s' Hle H.
  - exact H.
  - cbn [countdownFor] in *.
    destruct (millis e s) as [startTime s1].
    destruct (random e 500 2001 s1) as [delayTime s2].
    destruct (countdownWhile f1 e i startTime (ulong_wrap delayTime) s2)
      as [r1 s3|s3] eqn:W; [ | destruct s3; discriminate H ].
    rewrite (countdownWhile_more_fuel f1 f2 _ _ _ _ _ _ _ Hle W).
    destruct r1 as [o|]; [ exact H | ].
    apply IH; assumption.
Qed.

Lemma reactionWhile_more_fuel : forall f1 f2 e s o s',
  (f1 <= f2)%nat ->
  reactionWhile f1 e s = Ok o s' ->
  reactionWhile f2 e s = Ok o s'.
Proof.
  induction f1 as [|f1 IH]; intros f2 e s o s' Hle H.
  - discriminate H.
  - destruct f2 as [|f2]; [ lia | ].
    cbn [reactionWhile] in *.
    destruct (pollButtons e "Reaction Phase - P1: " s) as [[b1 b2] s2].
    destruct b1; [ exact H | ].
    destruct b2; [ exact H | ].
    apply IH; [ lia | exact H ].
Qed.

Lemma roundBody_more_fuel : forall f1 f2 e s o s',
  (f1 <= f2)%nat ->
  roundBody f1 e s = Ok o s' ->
  roundBody f2 e s = Ok o s'.
Proof.
  intros f1 f2 e s o s' Hle H. unfold roundBody in *. cbv zeta in *.
  destruct (countdownFor f1 e ledIndices (roundStart s)) as [r1 s1|s1] eqn:C;
    [ | discriminate H ].
  rewrite (countdownFor_more_fuel f1 f2 _ _ _ _ _ Hle C).
  destruct r1 as [o1|]; [ exact H | ].
  destruct (reactionWhile f1 e s1) as [o2 s2|s2] eqn:R; [ | discriminate H ].
  rewrite (reactionWhile_more_fuel f1 f2 _ _ _ _ Hle R). exact H.
Qed.

(** A round has one outcome and one final state, whatever fuel it is run
    with. *)
Lemma roundBody_deterministic : forall f1 f2 e s o1 s1 o2 s2,
  roundBody f1 e s = Ok o1 s1 ->
  roundBody f2 e s = Ok o2 s2 ->
  o1 = o2 /\ s1 = s2.
Proof.
  intros f1 f2 e s o1 s1 o2 s2 H1 H2.
  apply (roundBody_more_fuel f1 (Nat.max f1 f2)) in H1; [ | lia ].
  apply (roundBody_more_fuel f2 (Nat.max f1 f2)) in H2; [ | lia ].
  rewrite H1 in H2. injection H2 as -> ->. split; reflexivity.
Qed.

(** ** Rounds of a match *)

Lemma gameInv_resetGame : forall s, gameInv (resetGame s).
Proof. intros s. unfold gameInv, maxRounds. simpl. lia. Qed.

Lemma awarded_plain : forall o s s',
  0 <= player1Score s <= maxRounds -> 0 <= player2Score s <= maxRounds ->
  awarded o s s' ->
  match o with
  | Player1EarlyPress | Player2Reacted =>
      player1Score s' = player1Score s /\ player2Score s' = player2Score s + 1
  | Player2EarlyPress | Player1Reacted =>
      player1Score s' = player1Score s + 1 /\ player2Score s' = player2Score s
  end.
Proof.
  unfold maxRounds, awarded, scored1, scored2. intros o s s' H1 H2 A.
  destruct o; destruct A as [A1 A2]; rewrite A1, A2;
    rewrite int_incr_small by lia; split; reflexivity.
Qed.

(** One round from a state between rounds. *)
Lemma round_step_inv : forall fuel e s o s',
  gameInv s -> roundCount s < maxRounds ->
  roundBody fuel e (emit Enter_playRound s) = Ok o s' ->
  gameInv s' /\ roundCount s' = roundCount s + 1 /\
  match o with
  | Player1EarlyPress | Player2Reacted =>
      player1Score s' = player1Score s /\ player2Score s' = player2Score s + 1
  | Player2EarlyPress | Player1Reacted =>
      player1Score s' = player1Score s + 1 /\ player2Score s' = player2Score s
  end.
Proof.
  intros fuel e s o s' [I1 [I2 [I3 I4]]] Hlt H.
  pose proof (roundBody_spec fuel e (emit Enter_playRound s)) as B.
  rewrite H in B. destruct B as [B1 [B2 _]]. simpl in B1.
  unfold maxRounds in *.
  rewrite int_incr_small in B1 by lia.
  apply awarded_plain in B2; unfold maxRounds; simpl; [ | lia | lia ].
  simpl in B2. unfold gameInv, maxRounds.
  destruct o; destruct B2 as [B2 B3]; repeat split; try lia.
Qed.

Lemma rounds_inv : forall e n s s',
  rounds e n s s' -> gameInv s ->
  gameInv s' /\ roundCount s' = roundCount s + Z.of_nat n.
Proof.
  intros e n s s' H. induction H as [s|n s fuel o s1 s2 Hlt Hb Hr IH]; intros I.
  - split; [ exact I | simpl; lia ].
  - destruct (round_step_inv fuel e s o s1 I Hlt Hb) as [I1 [R1 _]].
    destruct (IH I1) as [I2 R2]. split; [ exact I2 | lia ].
Qed.

Lemma playRound_unfold : forall fuel e s,
  playRound (S fuel) e s =
  if maxRounds <=? roundCount s then
    Ok tt (emit Leave_playRound (endGame (emit Enter_playRound s)))
  else
    match roundBody fuel e (emit Enter_playRound s) with
    | OutOfFuel s1 => OutOfFuel s1
    | Ok _ s1 =>
      match playRound fuel e s1 with
      | OutOfFuel s2 => OutOfFuel s2
      | Ok _ s2 => Ok tt (emit Leave_playRound s2)
      end
    end.
Proof. intros. reflexivity. Qed.

(** A run of [playRound] that returns has played some rounds one after the
    other, found the round count at or above [maxRounds], gone through
    [endGame] and unwound. *)
Lemma playRound_rounds : forall fuel e s u s',
  playRound fuel e s = Ok u s' ->
  exists n s_end,
    rounds e n s s_end /\ maxRounds <= roundCount s_end /\
    s' = leaves (S n) (endGame (emit Enter_playRound s_end)).
Proof.
  induction fuel as [|f IH]; intros e s u s' H.
  - discriminate H.
  - rewrite playRound_unfold in H.
    destruct (maxRounds <=? roundCount s) eqn:G.
    + injection H as _ <-. exists O, s. repeat split.
      * apply rounds_O.
      * apply Z.leb_le, G.
    + destruct (roundBody f e (emit Enter_playRound s)) as [o s1|s1] eqn:B;
        [ | discriminate H ].
      destruct (playRound f e s1) as [u2 s2|s2] eqn:P; [ | discriminate H ].
      injection H as _ <-.
      destruct (IH e s1 u2 s2 P) as [n [s_end [Hr [Hge ->]]]].
      exists (S n), s_end. repeat split.
      * eapply rounds_S; [ apply Z.leb_gt, G | exact B | exact Hr ].
      * exact Hge.
Qed.


Lemma playRound_more_fuel : forall f1 f2 e s u s',
  (f1 <= f2)%nat ->
  playRound f1 e s = Ok u s' ->
  playRound f2 e s = Ok u s'.
Proof.
  induction f1 as [|f1 IH]; intros f2 e s u s' Hle H.
  - discriminate H.
  - destruct f2 as [|f2]; [ lia | ].
    rewrite playRound_unfold in *.
    destruct (maxRounds <=? roundCount s); [ exact H | ].
    destruct (roundBody f1 e (emit Enter_playRound s)) as [o s1|s1] eqn:B;
      [ | discriminate H ].
    rewrite (roundBody_more_fuel f1 f2 _ _ _ _ ltac:(lia) B).
    destruct (playRound f1 e s1) as [u1 s2|s2] eqn:P; [ | discriminate H ].
    rewrite (IH f2 e s1 u1 s2 ltac:(lia) P). exact H.
Qed.

(** Conversely, once the rounds have come to their end and the round count
    has reached [maxRounds], enough fuel lets [playRound] go through
    [endGame] and return. *)
Lemma rounds_playRound : forall e n s s_end,
  rounds e n s s_end ->
  maxRounds <= roundCount s_end ->
  exists fuel,
    playRound fuel e s
      = Ok tt (leaves (S n) (endGame (emit Enter_playRound s_end))).
Proof.
  intros e n s s_end H.
  induction H as [s|n s fuel o s1 s2 Hlt Hb Hr IH]; intros Hge.
  - exists 1%nat. rewrite playRound_unfold.
    apply Z.leb_le in Hge. rewrite Hge. reflexivity.
  - destruct (IH Hge) as [f' P].
    exists (S (Nat.max fuel f')). rewrite playRound_unfold.
    apply Z.leb_gt in Hlt. rewrite Hlt.
    rewrite (roundBody_more_fuel fuel (Nat.max fuel f') _ _ _ _
               ltac:(lia) Hb).
    rewrite (playRound_more_fuel f' (Nat.max fuel f') _ _ _ _ ltac:(lia) P).
    reflexivity.
Qed.

(** ** Nesting depth of [playRound] *)

Lemma depth_app_plain : forall evs l,
  forallb (fun ev => negb (isMarker ev)) evs = true ->
  callDepth (l ++ evs) = callDepth l /\ peakDepth (l ++ evs) = peakDepth l.
Proof.
  intros evs l H. unfold callDepth, peakDepth.
  rewrite fold_left_app, peakFrom_app.
  fold (callDepth l). fold (peakDepth l).
  pose proof (callDepth_le_peakDepth l) as Hle.
  revert H Hle. generalize (peakDepth l) as m. generalize (callDepth l) as d.
  induction evs as [|ev evs IH]; intros d m H Hle; simpl.
  - split; reflexivity.
  - simpl in H. apply andb_true_iff in H. destruct H as [Hev H].
    apply negb_true_iff in Hev.
    rewrite (depthStep_plain d ev Hev).
    replace (Z.max m d) with m by lia. apply IH; assumption.
Qed.

Lemma log_endGame : forall s, log (endGame s) = (log s ++ endGameEvents s)%list.
Proof.
  intros s. unfold endGame. cbv zeta. state_cbn.
  unfold endGameEvents, scoreEvents, idleEvents, finalResult. state_cbn.
  repeat rewrite <- app_assoc. reflexivity.
Qed.

Lemma endGame_spec : forall s,
  player1Score (endGame s) = player1Score s /\
  player2Score (endGame s) = player2Score s /\
  roundCount (endGame s) = roundCount s /\
  gameActive (endGame s) = false /\
  button1Pressed (endGame s) = false /\
  button2Pressed (endGame s) = false /\
  lastButton1State (endGame s) = LOW /\
  lastButton2State (endGame s) = LOW /\
  callDepth (log (endGame s)) = callDepth (log s) /\
  peakDepth (log (endGame s)) = peakDepth (log s).
Proof.
  intros s. rewrite log_endGame.
  destruct (depth_app_plain (endGameEvents s) (log s) eq_refl) as [-> ->].
  repeat split; reflexivity.
Qed.




Lemma waitRelease_frame : forall fuel e s,
  frame s (stateOf (waitRelease fuel e s)).
Proof.
  induction fuel as [|f IH]; intros e s; cbn [waitRelease].
  - apply frame_refl.
  - pose proof (frame_digitalRead e button1Pin s) as F1.
    destruct (digitalRead e button1Pin s) as [r1 s1]. cbn [snd] in F1.
    destruct (eqb r1 HIGH).
    + eapply frame_trans; [ exact F1 | ].
      eapply frame_trans; [ apply frame_delay | apply IH ].
    + pose proof (frame_digitalRead e button2Pin s1) as F2.
      destruct (digitalRead e button2Pin s1) as [r2 s2]. cbn [snd] in F2.
      destruct (eqb r2 HIGH).
      * eapply frame_trans; [ exact F1 | ].
        eapply frame_trans; [ exact F2 | ].
        eapply frame_trans; [ apply frame_delay | apply IH ].
      * cbn [stateOf]. eapply frame_trans; eassumption.
Qed.




Lemma playRounds_sound : forall n fuel e s s',
  playRounds n fuel e s = Some s' -> rounds e n s s'.
Proof.
  induction n as [|n IH]; intros fuel e s s' H; simpl in H.
  - injection H as <-. apply rounds_O.
  - destruct (roundCount s <? maxRounds) eqn:G; [ | discriminate H ].
    destruct (roundBody fuel e (emit Enter_playRound s)) as [o s1|s1] eqn:B;
      [ | discriminate H ].
    eapply rounds_S; [ apply Z.ltb_lt, G | exact B | eapply IH, H ].
Qed.

(** The round count never goes down and never passes [maxRounds]. *)
Lemma playRound_roundCount : forall fuel e s,
  0 <= roundCount s ->
  roundCount s <= roundCount (stateOf (playRound fuel e s)) /\
  roundCount (stateOf (playRound fuel e s)) <= Z.max (roundCount s) maxRounds.
Proof.
  induction fuel as [|f IH]; intros e s Hrc.
  - cbn [playRound stateOf]. lia.
  - rewrite playRound_unfold.
    destruct (maxRounds <=? roundCount s) eqn:G.
    + cbn [stateOf]. rewrite ?roundCount_emit.
      destruct (endGame_spec (emit Enter_playRound s)) as [_ [_ [-> _]]].
      rewrite ?roundCount_emit. lia.
    + apply Z.leb_gt in G. unfold maxRounds in *.
      pose proof (roundBody_spec f e (emit Enter_playRound s)) as B.
      destruct (roundBody f e (emit Enter_playRound s)) as [o s1|s1].
      * destruct B as [B1 _].
        rewrite roundCount_emit in B1.
        rewrite int_incr_small in B1 by lia.
        assert (Hrc1 : 0 <= roundCount s1) by lia.
        specialize (IH e s1 Hrc1).
        destruct (playRound f e s1) as [u s2|s2]; cbn [stateOf] in *;
          rewrite ?roundCount_emit;
          lia.
      * destruct B as [B1 _]. cbn [stateOf].
        rewrite roundCount_emit in B1.
        rewrite int_incr_small in B1 by lia. lia.
Qed.

Lemma log_roundEnd_early : forall o s,
  isEarlyPress o = true ->
  log (roundEnd o s) = (log s ++ earlyPressEvents o (roundEnd o s))%list.
Proof.
  intros o s H. destruct o; try discriminate H;
    unfold roundEnd, earlyPress1, earlyPress2, earlyPressEvents, scoreEvents;
    cbv zeta; state_cbn; repeat rewrite <- app_assoc; reflexivity.
Qed.

(** * The claims *)

(** C1.  After every completed round of a match the two scores add up to
    the round count, which is the number of rounds completed; and every
    further round that comes to its end does so with exactly one of the four
    outcomes (the same one whatever fuel it is run with), which gives
    exactly one point to one player and counts one round. *)
Theorem score_total_equals_roundCount : forall e n s0 s,
  rounds e n (resetGame s0) s ->
  (player1Score s + player2Score s = roundCount s /\
   roundCount s = Z.of_nat n) /\
  (forall fuel o s',
     roundCount s < maxRounds ->
     roundBody fuel e (emit Enter_playRound s) = Ok o s' ->
     match o with
     | Player1EarlyPress | Player2Reacted =>
         player1Score s' = player1Score s /\
         player2Score s' = player2Score s + 1
     | Player2EarlyPress | Player1Reacted =>
         player1Score s' = player1Score s + 1 /\
         player2Score s' = player2Score s
     end /\
     roundCount s' = roundCount s + 1 /\
     player1Score s' + player2Score s' = roundCount s' /\
     (forall fuel' o' s'',
        roundBody fuel' e (emit Enter_playRound s) = Ok o' s'' ->
        o' = o /\ s'' = s')).
Proof.
  intros e n s0 s H.
  destruct (rounds_inv e n _ _ H (gameInv_resetGame s0)) as [I R].
  change (roundCount (resetGame s0)) with 0 in R. split.
  - destruct I as [_ [_ [I3 _]]]. split; [ exact I3 | lia ].
  - intros fuel o s' Hlt Hb.
    destruct (round_step_inv fuel e s o s' I Hlt Hb) as [[_ [_ [J3 _]]] [R1 A]].
    repeat split; try assumption.
    + eapply roundBody_deterministic; eassumption.
    + eapply roundBody_deterministic; eassumption.
Qed.

(** C2.  Between the start of a match and the entry into [endGame] exactly
    [maxRounds] = 5 rounds are counted: after [n] rounds the round count is
    [n], it never passes 5, and the guard that leads to [endGame] holds
    exactly when [n] is 5.  A match that returns has played five rounds and
    gone through [endGame] once, with round count 5; and a match in which
    five rounds have come to their end, whatever their outcomes, does go
    through [endGame] and return, given enough fuel. *)
Theorem match_counts_five_rounds : forall e s0,
  (forall n s,
     rounds e n (resetGame s0) s ->
     roundCount s = Z.of_nat n /\ (n <= 5)%nat /\
     ((maxRounds <=? roundCount s) = true <-> n = 5%nat)) /\
  (forall fuel u s',
     startNewGame fuel e s0 = Ok u s' ->
     exists s5,
       rounds e 5 (resetGame s0) s5 /\
       roundCount s5 = maxRounds /\
       s' = leaves 6 (endGame (emit Enter_playRound s5)) /\
       roundCount s' = 5) /\
  (forall s5,
     rounds e 5 (resetGame s0) s5 ->
     exists fuel,
       startNewGame fuel e s0
         = Ok tt (leaves 6 (endGame (emit Enter_playRound s5)))).
Proof.
  intros e s0.
  assert (A : forall n s, rounds e n (resetGame s0) s ->
              roundCount s = Z.of_nat n /\ (n <= 5)%nat /\
              ((maxRounds <=? roundCount s) = true <-> n = 5%nat)).
  { intros n s H.
    destruct (rounds_inv e n _ _ H (gameInv_resetGame s0)) as [[_ [_ [_ I4]]] R].
    change (roundCount (resetGame s0)) with 0 in R.
    unfold maxRounds in *. rewrite Z.leb_le. lia. }
  split; [ exact A | split ].
  - intros fuel u s' H. unfold startNewGame in H.
    destruct (playRound_rounds fuel e _ u s' H) as [n [s_end [Hr [Hge ->]]]].
    destruct (A n s_end Hr) as [A1 [A2 A3]].
    assert (n = 5%nat) by (apply A3, Z.leb_le, Hge). subst n.
    exists s_end. split; [ exact Hr | split; [ | split ] ].
    + rewrite A1. reflexivity.
    + reflexivity.
    + cbn [leaves]. rewrite !roundCount_emit.
      destruct (endGame_spec (emit Enter_playRound s_end)) as [_ [_ [-> _]]].
      rewrite roundCount_emit, A1. reflexivity.
  - intros s5 Hr. destruct (A 5%nat s5 Hr) as [A1 _].
    unfold startNewGame. apply (rounds_playRound e 5 _ s5 Hr).
    rewrite A1. unfold maxRounds. simpl. lia.
Qed.

(** C3, as the code has it.  In [loop] the start of a match is decided on
    what [debounceButton] hands back, and that is the latch: the start
    fires exactly when no match is active and both latches are set once the
    two buttons have been sampled.  The debounced level of the buttons
    ([lastButton1State], [lastButton2State]) is not consulted; when the
    start does not fire [loop] ends after the sampling, and when it does
    the match is marked active. *)
Theorem start_fires_on_both_latches : forall fuel e s,
  let r := pollButtons e "Main Loop - P1: " s in
  let s1 := snd r in
  let fires := startCondition s1 (fst (fst r)) (snd (fst r)) in
  (fires = true <->
   gameActive s = false /\
   button1Pressed s1 = true /\ button2Pressed s1 = true) /\
  (fires = false -> loop fuel e s = Ok tt s1) /\
  (fires = true ->
   gameActive (beginGame s1) = true /\
   loop fuel e s =
     match waitRelease fuel e (beginGame s1) with
     | OutOfFuel s2 => OutOfFuel s2
     | Ok _ s2 => startNewGame fuel e s2
     end).
Proof.
  intros fuel e s r s1 fires. subst fires s1 r. unfold loop.
  destruct (pollButtons e "Main Loop - P1: " s) as [[b1 b2] s1] eqn:E.
  apply pollButtons_spec in E. destruct E as [[_ _ _ F4 _ _] [-> ->]].
  cbn [fst snd]. unfold startCondition. rewrite F4.
  destruct (gameActive s), (button1Pressed s1), (button2Pressed s1);
    cbn; repeat split; intros; try tauto; try discriminate;
    try (destruct H as [H1 [H2 H3]]; discriminate).
Qed.

(** Where a hold of the countdown reports an early press, the countdown
    has come to a pass that found a latch set; where it runs out, to a pass
    that found the hold over. *)
Lemma countdownAt_hold_early : forall f e todo0 s0 i rest startTime delayTime
    s o s',
  countdownAt e todo0 s0 (i :: rest) startTime delayTime s ->
  countdownWhile f e i startTime delayTime s = Ok (Some o) s' ->
  exists sp,
    countdownAt e todo0 s0 (i :: rest) startTime delayTime sp /\
    earlyPressAt e i startTime delayTime sp o s'.
Proof.
  induction f as [|f IH];
    intros e todo0 s0 i rest startTime delayTime s o s' Hat H.
  - discriminate H.
  - cbn [countdownWhile] in H.
    pose proof (countdownAt_pass e todo0 s0 i rest startTime delayTime s Hat)
      as Hp.
    cbv zeta in Hp.
    destruct (millis e s) as [t s1] eqn:M. cbn [fst snd] in Hp.
    destruct (ulong_sub t startTime <? delayTime) eqn:C;
      [ | discriminate H ].
    apply Z.ltb_lt in C.
    destruct (pollButtons e (countdownLabel i) s1) as [[b1 b2] s2] eqn:P.
    cbn [fst snd] in Hp.
    destruct b1; [ | destruct b2 ].
    + injection H as <- <-. exists s. split; [ exact Hat | ].
      unfold earlyPressAt. cbv zeta. rewrite M. cbn [fst snd].
      rewrite P. cbn [fst snd].
      split; [ exact C | split; [ left; reflexivity | ] ].
      split; reflexivity.
    + injection H as <- <-. exists s. split; [ exact Hat | ].
      unfold earlyPressAt. cbv zeta. rewrite M. cbn [fst snd].
      rewrite P. cbn [fst snd].
      split; [ exact C | split; [ right; reflexivity | ] ].
      split; reflexivity.
    + exact (IH e todo0 s0 i rest startTime delayTime s2 o s'
               (Hp C eq_refl) H).
Qed.

Lemma countdownAt_hold_over : forall f e todo0 s0 i rest startTime delayTime
    s s',
  countdownAt e todo0 s0 (i :: rest) startTime delayTime s ->
  countdownWhile f e i startTime delayTime s = Ok None s' ->
  exists sp,
    countdownAt e todo0 s0 (i :: rest) startTime delayTime sp /\
    delayTime <= ulong_sub (fst (millis e sp)) startTime /\
    s' = snd (millis e sp).
Proof.
  induction f as [|f IH];
    intros e todo0 s0 i rest startTime delayTime s s' Hat H.
  - discriminate H.
  - cbn [countdownWhile] in H.
    pose proof (countdownAt_pass e todo0 s0 i rest startTime delayTime s Hat)
      as Hp.
    cbv zeta in Hp.
    destruct (millis e s) as [t s1] eqn:M. cbn [fst snd] in Hp.
    destruct (ulong_sub t startTime <? delayTime) eqn:C.
    + apply Z.ltb_lt in C.
      destruct (pollButtons e (countdownLabel i) s1) as [[b1 b2] s2] eqn:P.
      cbn [fst snd] in Hp.
      destruct b1; [ discriminate H | ].
      destruct b2; [ discriminate H | ].
      exact (IH e todo0 s0 i rest startTime delayTime s2 s'
               (Hp C eq_refl) H).
    + apply Z.ltb_ge in C. injection H as <-.
      exists s. rewrite M. cbn [fst snd].
      split; [ exact Hat | split; [ exact C | reflexivity ] ].
Qed.

Lemma countdownAt_early : forall f e todo0 s0 rest i startTime delayTime
    s o s',
  countdownAt e todo0 s0 (i :: rest) startTime delayTime s ->
  match countdownWhile f e i startTime delayTime s with
  | OutOfFuel s1 => OutOfFuel s1
  | Ok (Some o1) s1 => Ok (Some o1) s1
  | Ok None s1 =>
      countdownFor f e rest
        (emit (SerialPrintln
                 ("LED " ++ String_of_int (Z.of_nat i + 1) ++ " turned off"))
           (digitalWrite (ledPin i) LOW s1))
  end = Ok (Some o) s' ->
  exists j rest' startTime' delayTime' sp,
    countdownAt e todo0 s0 (j :: rest') startTime' delayTime' sp /\
    earlyPressAt e j startTime' delayTime' sp o s'.
Proof.
  intros f e todo0 s0 rest.
  induction rest as [|k rest IH];
    intros i startTime delayTime s o s' Hat H;
    destruct (countdownWhile f e i startTime delayTime s)
      as [[o1|] s1|s1] eqn:W; try discriminate H.
  - injection H as -> ->.
    destruct (countdownAt_hold_early _ _ _ _ _ _ _ _ _ _ _ Hat W)
      as [sp [A E]].
    exists i, [], startTime, delayTime, sp. split; assumption.
  - injection H as -> ->.
    destruct (countdownAt_hold_early _ _ _ _ _ _ _ _ _ _ _ Hat W)
      as [sp [A E]].
    exists i, (k :: rest), startTime, delayTime, sp. split; assumption.
  - destruct (countdownAt_hold_over _ _ _ _ _ _ _ _ _ _ Hat W)
      as [sp [A [C ->]]].
    pose proof (countdownAt_next e todo0 s0 i k rest startTime delayTime sp
                  A C) as Hn.
    cbv zeta in Hn. cbn [countdownFor] in H.
    match type of H with
    | context [millis e ?x] =>
        destruct (millis e x) as [t' sa]
    end.
    cbn [fst snd] in Hn.
    destruct (random e 500 2001 sa) as [dl sb]. cbn [fst snd] in Hn.
    exact (IH k t' (ulong_wrap dl) sb o s' Hn H).
Qed.

Lemma countdownFor_early_at : forall f e todo s0 o s',
  countdownFor f e todo s0 = Ok (Some o) s' ->
  exists j rest startTime delayTime sp,
    countdownAt e todo s0 (j :: rest) startTime delayTime sp /\
    earlyPressAt e j startTime delayTime sp o s'.
Proof.
  intros f e todo s0 o s' H. destruct todo as [|i rest].
  - discriminate H.
  - pose proof (countdownAt_enter e i rest s0) as He. cbv zeta in He.
    cbn [countdownFor] in H.
    destruct (millis e s0) as [t sa]. cbn [fst snd] in He.
    destruct (random e 500 2001 sa) as [dl sb]. cbn [fst snd] in He.
    exact (countdownAt_early f e (i :: rest) s0 rest i t (ulong_wrap dl) sb
             o s' He H).
Qed.

(** From a pass that the countdown has come to, what the rest of the
    countdown gives is what the whole countdown gives. *)
Lemma countdownAt_resume : forall e todo0 s0 todo startTime delayTime s,
  countdownAt e todo0 s0 todo startTime delayTime s ->
  forall i rest, todo = i :: rest ->
  forall f r s',
    match countdownWhile f e i startTime delayTime s with
    | OutOfFuel s1 => OutOfFuel s1
    | Ok (Some o) s1 => Ok (Some o) s1
    | Ok None s1 =>
        countdownFor f e rest
          (emit (SerialPrintln
                   ("LED " ++ String_of_int (Z.of_nat i + 1) ++ " turned off"))
             (digitalWrite (ledPin i) LOW s1))
    end = Ok r s' ->
    exists F, countdownFor F e todo0 s0 = Ok r s'.
Proof.
  intros e todo0 s0 todo startTime delayTime s H.
  induction H as [ i0 rest0 s0 m d
                 | todo0 s0 i0 rest0 startTime delayTime s H IH m r0 Hh Hp
                 | todo0 s0 i0 j0 rest0 startTime delayTime s H IH m Hh
                     s1 s2 m' d' ];
    intros i rest E f r s' Hc.
  - injection E as <- <-. exists f. cbn [countdownFor].
    subst d m.
    destruct (millis e s0) as [t sa]. cbn [fst snd] in Hc.
    destruct (random e 500 2001 sa) as [dl sb]. cbn [fst snd] in Hc.
    exact Hc.
  - injection E as <- <-.
    apply (IH i0 rest0 eq_refl (S f) r s').
    cbn [countdownWhile]. subst r0 m.
    destruct (millis e s) as [t sa]. cbn [fst snd] in *.
    apply Z.ltb_lt in Hh. rewrite Hh.
    destruct (pollButtons e (countdownLabel i0) sa) as [[b1 b2] sb].
    cbn [fst snd] in *. injection Hp as -> ->.
    destruct (countdownWhile f e i0 startTime delayTime sb)
      as [[o|] sc|sc]; [ exact Hc | | discriminate Hc ].
    apply (countdownFor_more_fuel f (S f)); [ lia | exact Hc ].
  - injection E as <- <-.
    apply (IH i0 (j0 :: rest0) eq_refl (S f) r s').
    cbn [countdownWhile]. subst d' m' s2 s1 m.
    destruct (millis e s) as [t sa]. cbn [fst snd] in *.
    assert (Hn : (ulong_sub t startTime <? delayTime) = false)
      by (apply Z.ltb_ge; exact Hh).
    rewrite Hn.
    apply (countdownFor_more_fuel f (S f)); [ lia | ].
    cbn [countdownFor].
    match goal with
    | |- context [millis e ?x] => destruct (millis e x) as [t' sb]
    end.
    cbn [fst snd] in Hc.
    destruct (random e 500 2001 sb) as [dl sc]. cbn [fst snd] in Hc.
    exact Hc.
Qed.

(** C4, as the code has it.  At a pass through the countdown loop (the hold
    not yet over) on which a latch is found set, the hold ends at once with
    an early press: that of player 1 when player 1's latch is set, also when
    player 2's is set on the same pass, and that of player 2 when only
    player 2's is set.  The other player gets one point, both latches are
    cleared, and what is still written is the penalty display and its
    2000 ms hold, with no LED write in it.

    Of the round itself: when the countdown of a round has come to such a
    pass, in the hold of whichever LED and after however many passes, the
    round ends there: run for long enough it returns that early press, in
    the very state in which the handler ended.  Nothing is run after the
    handler, so the reaction phase is not entered, no further question is
    asked and no further LED is switched off.  In general, as soon as the
    countdown of a round reports an early press the round is over with
    that outcome and in that state, which comes from a poll in the hold of
    one of the three LEDs that found a latch set; and every round whose
    outcome is an early press has ended in this way. *)
Theorem early_press_ends_round : forall fuel e i startTime delayTime s,
  let m := millis e s in
  let r := pollButtons e (countdownLabel i) (snd m) in
  let b1 := fst (fst r) in
  let b2 := snd (fst r) in
  let o := if b1 then Player1EarlyPress else Player2EarlyPress in
  let s' := roundEnd o (snd r) in
  (ulong_sub (fst m) startTime < delayTime ->
   b1 = true \/ b2 = true ->
   countdownWhile (S fuel) e i startTime delayTime s = Ok (Some o) s' /\
   awarded o (snd r) s' /\
   button1Pressed s' = false /\ button2Pressed s' = false /\
   log s' = (log (snd r) ++ earlyPressEvents o s')%list /\
   forallb (fun ev => negb (isLedOff ev)) (earlyPressEvents o s') = true) /\
  (forall s0 rest,
     countdownAt e ledIndices (roundStart s0) (i :: rest)
       startTime delayTime s ->
     ulong_sub (fst m) startTime < delayTime ->
     b1 = true \/ b2 = true ->
     exists F0, forall F, (F0 <= F)%nat -> roundBody F e s0 = Ok o s') /\
  (forall o1 s1,
     countdownFor fuel e ledIndices (roundStart s) = Ok (Some o1) s1 ->
     roundBody fuel e s = Ok o1 s1 /\
     isEarlyPress o1 = true /\
     exists j rest startTime1 delayTime1 sp,
       let s3 := snd (pollButtons e (countdownLabel j)
                        (snd (millis e sp))) in
       countdownAt e ledIndices (roundStart s) (j :: rest)
         startTime1 delayTime1 sp /\
       earlyPressAt e j startTime1 delayTime1 sp o1 s1 /\
       awarded o1 s3 s1 /\
       button1Pressed s1 = false /\ button2Pressed s1 = false /\
       now s1 = now s3 /\
       log s1 = (log s3 ++ earlyPressEvents o1 s1)%list /\
       forallb (fun ev => negb (isLedOff ev)) (earlyPressEvents o1 s1)
         = true) /\
  (forall o2 s2,
     roundBody fuel e s = Ok o2 s2 -> isEarlyPress o2 = true ->
     countdownFor fuel e ledIndices (roundStart s) = Ok (Some o2) s2 /\
     awarded o2 s s2 /\
     exists s3,
       s2 = roundEnd o2 s3 /\
       log s2 = (log s3 ++ earlyPressEvents o2 s2)%list).
Proof.
  intros fuel e i startTime delayTime s m r b1 b2 o s'.
  assert (P : forall f,
            ulong_sub (fst m) startTime < delayTime ->
            b1 = true \/ b2 = true ->
            countdownWhile (S f) e i startTime delayTime s
              = Ok (Some o) s').
  { intros f Hhold Hlatch. subst s' o b1 b2 r m.
    cbn [countdownWhile].
    destruct (millis e s) as [t s1]. cbn [fst snd] in *.
    apply Z.ltb_lt in Hhold. rewrite Hhold.
    destruct (pollButtons e (countdownLabel i) s1) as [[b1 b2] s2].
    cbn [fst snd] in *.
    destruct b1; [ reflexivity | ].
    destruct b2; [ reflexivity | ].
    destruct Hlatch; discriminate. }
  split; [ | split; [ | split ] ].
  - intros Hhold Hlatch.
    split; [ exact (P fuel Hhold Hlatch) | ].
    clear P. subst s' o b1 b2 r m.
    destruct (pollButtons e (countdownLabel i) (snd (millis e s)))
      as [[b1 b2] s2].
    cbn [fst snd] in *.
    assert (E : isEarlyPress (if b1 then Player1EarlyPress
                              else Player2EarlyPress) = true)
      by (destruct b1; reflexivity).
    destruct (roundEnd_spec (if b1 then Player1EarlyPress
                             else Player2EarlyPress) s2)
      as [A [_ [_ [_ [_ [L1 L2]]]]]].
    split; [ exact A | split; [ exact L1 | split; [ exact L2 | ] ] ].
    split; [ apply log_roundEnd_early, E | ].
    destruct b1; reflexivity.
  - intros s0 rest Hat Hhold Hlatch.
    pose proof (P O Hhold Hlatch) as W.
    destruct (countdownAt_resume _ _ _ _ _ _ _ Hat i rest eq_refl
                1%nat (Some o) s') as [F HF].
    { rewrite W. reflexivity. }
    exists F. intros F' Hle.
    apply (roundBody_more_fuel F F'); [ exact Hle | ].
    unfold roundBody. cbv zeta. rewrite HF. reflexivity.
  - clear P m r b1 b2 o s'. intros o1 s1 Hc.
    split; [ unfold roundBody; cbv zeta; rewrite Hc; reflexivity | ].
    destruct (countdownFor_early_at _ _ _ _ _ _ Hc)
      as [j [rest [st [dt [sp [Hat Hep]]]]]].
    pose proof Hep as [_ [_ [Eo Es]]].
    assert (E : isEarlyPress o1 = true)
      by (rewrite Eo;
          destruct (fst (fst (pollButtons e (countdownLabel j)
                                (snd (millis e sp))))); reflexivity).
    split; [ exact E | ].
    exists j, rest, st, dt, sp. cbv zeta.
    destruct (roundEnd_spec o1
                (snd (pollButtons e (countdownLabel j) (snd (millis e sp)))))
      as [A [_ [_ [_ [_ [L1 L2]]]]]].
    pose proof (log_roundEnd_early o1
                  (snd (pollButtons e (countdownLabel j) (snd (millis e sp))))
                  E) as Lg.
    assert (N : now (roundEnd o1
                       (snd (pollButtons e (countdownLabel j)
                               (snd (millis e sp)))))
                = now (snd (pollButtons e (countdownLabel j)
                              (snd (millis e sp)))))
      by (destruct o1; reflexivity).
    assert (Q : forallb (fun ev => negb (isLedOff ev))
                  (earlyPressEvents o1
                     (roundEnd o1
                        (snd (pollButtons e (countdownLabel j)
                                (snd (millis e sp)))))) = true)
      by (destruct o1; reflexivity).
    rewrite <- Es in A, L1, L2, Lg, N, Q.
    refine (conj Hat (conj Hep (conj A (conj L1 (conj L2
              (conj N (conj Lg Q))))))).
  - clear P m r b1 b2 o s'. intros o2 s2 Hb He.
    pose proof (roundBody_spec fuel e s) as B.
    pose proof (roundBody_shape fuel e s) as Sh.
    rewrite Hb in B, Sh. destruct B as [_ [A _]].
    destruct Sh as [s3 [_ Es]].
    split; [ | split; [ exact A | ] ].
    + unfold roundBody in Hb. cbv zeta in Hb.
      destruct (countdownFor fuel e ledIndices (roundStart s))
        as [[oc|] sc|sc]; [ | | discriminate Hb ].
      * injection Hb as -> ->. reflexivity.
      * pose proof (reactionWhile_shape fuel e sc) as R.
        destruct (reactionWhile fuel e sc) as [orr sr|sr];
          [ | discriminate Hb ].
        destruct R as [Hr _]. injection Hb as -> _.
        rewrite He in Hr. discriminate Hr.
    + exists s3. subst s2.
      split; [ reflexivity | apply log_roundEnd_early, He ].
Qed.

(** C5, as the code has it.  A round that ends in an early press has
    counted itself once: at its end the round count is one above what it was
    at its start, the handler having left it alone.  The re-entry of
    [playRound] that follows is a round call like any other: below
    [maxRounds] it counts the next round at once, so that the round count
    is one higher already where the re-entered call first stops, and is
    never lower than that afterwards; at [maxRounds] it goes through
    [endGame] and returns.  No round is played again under the number it
    had. *)
Theorem early_press_reentry_counts_next_round : forall fuel e s o s',
  0 <= roundCount s < maxRounds ->
  roundBody fuel e s = Ok o s' ->
  isEarlyPress o = true ->
  roundCount s' = roundCount s + 1 /\
  (exists s3, s' = roundEnd o s3 /\ roundCount (roundEnd o s3) = roundCount s3) /\
  (roundCount s' < maxRounds ->
   roundCount (stateOf (playRound 1 e s')) = roundCount s' + 1 /\
   forall k, roundCount s' + 1 <= roundCount (stateOf (playRound (S k) e s'))) /\
  (maxRounds <= roundCount s' ->
   forall k,
     playRound (S k) e s'
       = Ok tt (emit Leave_playRound (endGame (emit Enter_playRound s')))).
Proof.
  intros fuel e s o s' Hrc Hb He. unfold maxRounds in *.
  pose proof (roundBody_spec fuel e s) as B.
  pose proof (roundBody_shape fuel e s) as Sh.
  rewrite Hb in B, Sh. destruct B as [B1 _].
  rewrite int_incr_small in B1 by lia.
  split; [ exact B1 | split; [ | split ] ].
  - destruct Sh as [s3 [_ ->]]. exists s3. split; [ reflexivity | ].
    apply roundEnd_spec.
  - intros Hlt.
    assert (G : (maxRounds <=? roundCount s') = false)
      by (apply Z.leb_gt; unfold maxRounds; lia).
    split.
    + rewrite playRound_unfold, G.
      pose proof (roundBody_spec 0 e (emit Enter_playRound s')) as B0.
      destruct (roundBody 0 e (emit Enter_playRound s')) as [o0 s0|s0];
        cbn [playRound stateOf]; destruct B0 as [B0 _];
        rewrite roundCount_emit in B0;
        rewrite int_incr_small in B0 by lia; exact B0.
    + intros k. rewrite playRound_unfold, G.
      pose proof (roundBody_spec k e (emit Enter_playRound s')) as Bk.
      destruct (roundBody k e (emit Enter_playRound s')) as [ok sk|sk].
      * destruct Bk as [Bk _]. rewrite roundCount_emit in Bk.
        rewrite int_incr_small in Bk by lia.
        assert (Hk : 0 <= roundCount sk) by lia.
        pose proof (playRound_roundCount k e sk Hk) as [P1 _].
        destruct (playRound k e sk) as [u s2|s2]; cbn [stateOf] in *;
          rewrite ?roundCount_emit; lia.
      * destruct Bk as [Bk _]. cbn [stateOf]. rewrite roundCount_emit in Bk.
        rewrite int_incr_small in Bk by lia. lia.
  - intros Hge k. rewrite playRound_unfold.
    assert (G : (maxRounds <=? roundCount s') = true)
      by (apply Z.leb_le; unfold maxRounds; lia).
    rewrite G. reflexivity.
Qed.

(** C6.  In the reaction phase, a pass on which both latches are found set
    gives the round to player 1; and every reaction phase that comes to its
    end names one winner and gives the point to that player alone, so no
    round is tied. *)
Theorem reaction_simultaneous_goes_to_player1 : forall fuel e s,
  let r := pollButtons e "Reaction Phase - P1: " s in
  (fst (fst r) = true -> snd (fst r) = true ->
   reactionWhile (S fuel) e s = Ok Player1Reacted (reactionWin1 (snd r)) /\
   scored1 s (reactionWin1 (snd r))) /\
  (forall o s',
     reactionWhile fuel e s = Ok o s' ->
     (o = Player1Reacted /\ scored1 s s') \/
     (o = Player2Reacted /\ scored2 s s')).
Proof.
  intros fuel e s r. subst r. split.
  - intros H1 H2. cbn [reactionWhile].
    destruct (pollButtons e "Reaction Phase - P1: " s) as [[b1 b2] s1] eqn:P.
    cbn [fst snd] in *. subst b1 b2.
    apply pollButtons_spec in P. destruct P as [[F1 F2 _ _ _ _] _].
    split; [ reflexivity | ].
    destruct (reactionWin1_scored s1) as [W1 W2].
    unfold scored1. split; congruence.
  - intros o s' H.
    pose proof (reactionWhile_shape fuel e s) as Sh. rewrite H in Sh.
    destruct Sh as [He [s3 [[F1 F2 _ _ _ _] E]]].
    destruct (roundEnd_spec o s3) as [A _].
    destruct (roundHold_spec s') as [[H1 H2 _ _ _ _] _].
    rewrite <- E in A. unfold awarded, scored1, scored2 in *.
    destruct o; try discriminate He; [ left | right ];
      (split; [ reflexivity | destruct A; split; congruence ]).
Qed.

(** C7.  Sampling a channel any number of times while the pin reads what
    the stable state already is changes neither the stable state nor the
    latch (and waits for nothing).  Whatever the pin reads, one sample hands
    back the latch it leaves; it never clears a latch that is set; and it
    sets a latch that is clear only when the stable state was LOW and both
    readings, before and after the settle delay, are HIGH, which it commits
    as the new stable state. *)
Theorem debounce_sample_keeps_latch : forall e pin lastState pressedFlag s,
  (forall n,
     (forall k, (now s <= k < now s + n)%nat ->
                pin_level e k pin = lastState) ->
     fst (debounceTimes n e pin lastState pressedFlag s)
       = (lastState, pressedFlag) /\
     log (snd (debounceTimes n e pin lastState pressedFlag s)) = log s) /\
  (let '(r, (lastState', pressedFlag'), _) :=
     debounceButton e pin lastState pressedFlag s in
   r = pressedFlag' /\
   (pressedFlag = true -> pressedFlag' = true) /\
   (pressedFlag = false -> pressedFlag' = true ->
    lastState = LOW /\ lastState' = HIGH /\
    pin_level e (now s) pin = HIGH /\
    pin_level e (S (now s)) pin = HIGH)).
Proof.
  intros e pin lastState pressedFlag s. split.
  - intros n. revert s.
    induction n as [|n IH]; intros s H; cbn [debounceTimes].
    + split; reflexivity.
    + assert (R : debounceButton e pin lastState pressedFlag s
                  = (pressedFlag, (lastState, pressedFlag), tick s)).
      { unfold debounceButton, digitalRead.
        rewrite (H (now s)) by lia. rewrite eqb_reflx. reflexivity. }
      rewrite R.
      destruct (IH (tick s)) as [I1 I2].
      * intros k Hk. apply H. simpl in Hk. lia.
      * split; [ exact I1 | exact I2 ].
  - unfold debounceButton, digitalRead, delay, HIGH, LOW.
    cbn [now tick emit set_now set_log].
    destruct (pin_level e (now s) pin), (pin_level e (S (now s)) pin),
      lastState, pressedFlag; cbn; repeat split; intros; congruence.
Qed.

(** C8.  [endGame] writes, in this order: the end screen with the scores;
    the result line, which names player 1 exactly when player 1's score is
    the higher one, player 2 exactly when player 2's is, and a tie exactly
    when the scores are equal; a hold of 10000 ms; the idle screen.  It
    leaves the match inactive, both latches clear and both stable states
    LOW, and does not touch the scores. *)
Theorem endGame_reports_result_and_returns_to_idle : forall s,
  log (endGame s) =
    (log s
     ++ [ LcdInit; LcdBacklight; LcdClear; LcdSetCursor 4 0;
          LcdPrint "End Game"; SerialPrintln "LCD Update: End Game" ]
     ++ scoreEvents s
     ++ [ SerialPrintln ("Game Over - " ++ finalResult s); Delay 10000 ]
     ++ idleEvents)%list /\
  (finalResult s = "Player 1 wins!" <-> player1Score s > player2Score s) /\
  (finalResult s = "Player 2 wins!" <-> player2Score s > player1Score s) /\
  (finalResult s = "It's a tie!" <-> player1Score s = player2Score s) /\
  gameActive (endGame s) = false /\
  button1Pressed (endGame s) = false /\
  button2Pressed (endGame s) = false /\
  lastButton1State (endGame s) = LOW /\
  lastButton2State (endGame s) = LOW /\
  player1Score (endGame s) = player1Score s /\
  player2Score (endGame s) = player2Score s.
Proof.
  intros s. split; [ apply log_endGame | ].
  destruct (endGame_spec s) as [E1 [E2 [_ [E4 [E5 [E6 [E7 [E8 _]]]]]]]].
  unfold finalResult.
  destruct (player2Score s <? player1Score s) eqn:G1;
    destruct (player1Score s <? player2Score s) eqn:G2;
    rewrite ?Z.ltb_lt, ?Z.ltb_ge in G1, G2;
    repeat split; intros; try assumption; try discriminate; try lia.
Qed.

(** C9.  With [maxRounds] = 5, in every state in which a match enters
    [endGame] the two scores add up to 5 and so differ: the result line is
    not the tie line, and the tie line is not among what [endGame] writes. *)
Theorem five_rounds_never_tie : forall e n s0 s,
  rounds e n (resetGame s0) s ->
  maxRounds <= roundCount s ->
  player1Score s + player2Score s = 5 /\
  player1Score s <> player2Score s /\
  finalResult (emit Enter_playRound s) <> "It's a tie!" /\
  ~ In (SerialPrintln "Game Over - It's a tie!")
       (endGameEvents (emit Enter_playRound s)).
Proof.
  intros e n s0 s H Hge.
  destruct (rounds_inv e n _ _ H (gameInv_resetGame s0)) as [[I1 [I2 [I3 I4]]] _].
  unfold maxRounds in *.
  assert (Hsum : player1Score s + player2Score s = 5) by lia.
  assert (Hne : player1Score s <> player2Score s) by lia.
  assert (Hres : finalResult (emit Enter_playRound s) <> "It's a tie!").
  { unfold finalResult. simpl.
    destruct (player2Score s <? player1Score s) eqn:G1; [ discriminate | ].
    destruct (player1Score s <? player2Score s) eqn:G2; [ discriminate | ].
    rewrite Z.ltb_ge in G1, G2. lia. }
  repeat split; try assumption.
  intros Hin. unfold endGameEvents, scoreEvents, idleEvents in Hin.
  simpl in Hin.
  repeat (destruct Hin as [Hin|Hin]; [ try discriminate Hin | ]);
    try contradiction.
  injection Hin as Hin. apply Hres. exact Hin.
Qed.


(** * The claims at work on concrete runs *)

(** Settles a conjunction of closed facts by evaluation. *)
Ltac by_evaluation :=
  cbv zeta;
  repeat match goal with |- _ /\ _ => split end;
  vm_compute; reflexivity.

Lemma tapMatch_rounds : forall n,
  (n <= 5)%nat -> rounds tapEnv n (resetGame initState) (tapMatchAfter n).
Proof.
  intros n Hn. apply (playRounds_sound n 60).
  do 6 (destruct n as [|n]; [ vm_compute; reflexivity | ]). lia.
Qed.

Lemma score_total_equals_roundCount_witness :
  (player1Score (tapMatchAfter 2) + player2Score (tapMatchAfter 2)
     = roundCount (tapMatchAfter 2) /\
   roundCount (tapMatchAfter 2) = 2) /\
  (player1Score (tapMatchAfter 3) = player1Score (tapMatchAfter 2) + 1 /\
   player2Score (tapMatchAfter 3) = player2Score (tapMatchAfter 2)).
Proof.
  pose proof (score_total_equals_roundCount tapEnv 2 initState
                (tapMatchAfter 2) (tapMatch_rounds 2 ltac:(lia))) as [H1 H2].
  split; [ exact H1 | ].
  assert (Hlt : roundCount (tapMatchAfter 2) < maxRounds)
    by (vm_compute; reflexivity).
  assert (Hb : roundBody 60 tapEnv (emit Enter_playRound (tapMatchAfter 2))
               = Ok Player1Reacted (tapMatchAfter 3))
    by (vm_compute; reflexivity).
  exact (proj1 (H2 60%nat Player1Reacted (tapMatchAfter 3) Hlt Hb)).
Defined.

Lemma match_counts_five_rounds_witness :
  (roundCount (tapMatchAfter 3) = 3 /\
   ((maxRounds <=? roundCount (tapMatchAfter 3)) = true -> False)) /\
  (exists s5,
     rounds tapEnv 5 (resetGame initState) s5 /\
     roundCount s5 = maxRounds /\
     stateOf (startNewGame 100 tapEnv initState)
       = leaves 6 (endGame (emit Enter_playRound s5)) /\
     roundCount (stateOf (startNewGame 100 tapEnv initState)) = 5) /\
  (exists fuel,
     startNewGame fuel tapEnv initState
       = Ok tt (leaves 6 (endGame (emit Enter_playRound (tapMatchAfter 5))))).
Proof.
  destruct (match_counts_five_rounds tapEnv initState) as [A [B C]].
  split; [ | split ].
  - destruct (A 3%nat (tapMatchAfter 3) (tapMatch_rounds 3 ltac:(lia)))
      as [A1 [_ A3]].
    split; [ exact A1 | ].
    intros H. apply A3 in H. discriminate H.
  - apply (B 100%nat tt). vm_compute. reflexivity.
  - apply C, (tapMatch_rounds 5). lia.
Defined.

(** The start of a match fires in a state in which button 1 was tapped and
    let go and only button 2 is down: the debounced level of button 1 reads
    LOW, and at no question were both pins HIGH. *)
Lemma start_on_levels_counterexample :
  let r := pollButtons tapThenPressEnv "Main Loop - P1: " idleAfterTap in
  gameActive idleAfterTap = false /\
  startCondition (snd r) (fst (fst r)) (snd (fst r)) = true /\
  lastButton1State (snd r) = LOW /\
  (forall k, pin_level tapThenPressEnv k button1Pin
             && pin_level tapThenPressEnv k button2Pin = false).
Proof.
  cbv zeta. split; [ vm_compute; reflexivity | ].
  split; [ vm_compute; reflexivity | ].
  split; [ vm_compute; reflexivity | ].
  intros k. unfold tapThenPressEnv, pin_level, button1Pin, button2Pin.
  cbn [Z.eqb Pos.eqb].
  destruct (k <? 2)%nat eqn:E1; [ | reflexivity ].
  destruct (9 <=? k)%nat eqn:E2; [ | reflexivity ].
  apply Nat.ltb_lt in E1. apply Nat.leb_le in E2. lia.
Qed.

Lemma start_fires_on_both_latches_witness :
  (button1Pressed
     (snd (pollButtons tapThenPressEnv "Main Loop - P1: " idleAfterTap)) = true /\
   button2Pressed
     (snd (pollButtons tapThenPressEnv "Main Loop - P1: " idleAfterTap)) = true /\
   gameActive
     (beginGame
        (snd (pollButtons tapThenPressEnv "Main Loop - P1: " idleAfterTap)))
     = true) /\
  loop 20 tapThenPressEnv (setup initState)
    = Ok tt (snd (pollButtons tapThenPressEnv "Main Loop - P1: "
                    (setup initState))).
Proof.
  split.
  - pose proof (start_fires_on_both_latches 20 tapThenPressEnv idleAfterTap)
      as H.
    cbv zeta in H. destruct H as [H1 [_ H3]].
    assert (F : startCondition
                  (snd (pollButtons tapThenPressEnv "Main Loop - P1: "
                          idleAfterTap))
                  (fst (fst (pollButtons tapThenPressEnv "Main Loop - P1: "
                               idleAfterTap)))
                  (snd (fst (pollButtons tapThenPressEnv "Main Loop - P1: "
                               idleAfterTap))) = true)
      by (vm_compute; reflexivity).
    destruct (proj1 H1 F) as [_ [L1 L2]].
    split; [ exact L1 | split; [ exact L2 | exact (proj1 (H3 F)) ] ].
  - pose proof (start_fires_on_both_latches 20 tapThenPressEnv
                  (setup initState)) as H.
    cbv zeta in H. destruct H as [_ [H2 _]].
    apply H2. vm_compute. reflexivity.
Defined.

(** With both buttons down on the same pass of the countdown, player 2's
    latch is set and yet the round ends with player 1's early press: the
    point goes to player 2, and player 1, the opponent of player 2, gets
    none. *)
Lemma early_press_both_counterexample :
  let s := resetGame initState in
  let r := pollButtons heldEnv (countdownLabel 0) (snd (millis heldEnv s)) in
  snd (fst r) = true /\
  button2Pressed (snd r) = true /\
  exists s',
    countdownWhile 1 heldEnv 0 0 500 s = Ok (Some Player1EarlyPress) s' /\
    player1Score s' = player1Score s /\
    player2Score s' = player2Score s + 1.
Proof.
  cbv zeta. split; [ vm_compute; reflexivity | ].
  split; [ vm_compute; reflexivity | ].
  exists (stateOf (countdownWhile 1 heldEnv 0 0 500 (resetGame initState))).
  by_evaluation.
Qed.

Lemma early_press_ends_round_witness :
  let s := resetGame initState in
  let s1 := snd (pollButtons held2Env (countdownLabel 0)
                   (snd (millis held2Env s))) in
  let m := millis held2Env (roundStart s) in
  let d := random held2Env 500 2001 (snd m) in
  let s2 := snd (pollButtons held2Env (countdownLabel 0)
                   (snd (millis held2Env (snd d)))) in
  (countdownWhile 1 held2Env 0 0 500 s
     = Ok (Some Player2EarlyPress) (roundEnd Player2EarlyPress s1) /\
   scored1 s1 (roundEnd Player2EarlyPress s1) /\
   button1Pressed (roundEnd Player2EarlyPress s1) = false /\
   button2Pressed (roundEnd Player2EarlyPress s1) = false) /\
  (exists F0, forall F, (F0 <= F)%nat ->
     roundBody F held2Env s
       = Ok Player2EarlyPress (roundEnd Player2EarlyPress s2)) /\
  roundBody 1 held2Env s
    = Ok Player2EarlyPress
        (stateOf (countdownFor 1 held2Env ledIndices (roundStart s))) /\
  scored1 s (stateOf (roundBody 1 held2Env s)) /\
  (exists F0, forall F, (F0 <= F)%nat ->
     roundBody F tapEnv (emit Enter_playRound s)
       = Ok Player1EarlyPress (tapMatchAfter 1)).
Proof.
  assert (T1 : roundBody 60 tapEnv (emit Enter_playRound (resetGame initState))
               = Ok Player1EarlyPress (tapMatchAfter 1))
    by (vm_compute; reflexivity).
  pose proof (early_press_ends_round 60 tapEnv 0%nat 0 0
                (emit Enter_playRound (resetGame initState))) as T.
  cbv zeta in T. destruct T as [_ [_ [T3 T4]]].
  destruct (T4 _ _ T1 eq_refl) as [Tc _].
  destruct (T3 _ _ Tc) as [_ [_ [j [rest [st [dt [sp [Hat [Hep _]]]]]]]]].
  unfold earlyPressAt in Hep. cbv zeta in Hep.
  destruct Hep as [Eh [El [Eo Es]]].
  pose proof (early_press_ends_round 0 tapEnv j st dt sp) as U.
  cbv zeta in U. destruct U as [_ [U _]].
  specialize (U (emit Enter_playRound (resetGame initState)) rest Hat Eh El).
  rewrite <- Eo in U. rewrite <- Es in U.
  pose proof (early_press_ends_round 0 held2Env 0%nat 0 500
                (resetGame initState)) as H.
  cbv zeta in H. destruct H as [H _].
  pose proof (early_press_ends_round 1 held2Env 0%nat 0 500
                (resetGame initState)) as B.
  cbv zeta in B. destruct B as [_ [_ [B1 B2]]].
  pose proof (early_press_ends_round 0 held2Env 0%nat
                (fst (millis held2Env (roundStart (resetGame initState))))
                (ulong_wrap
                   (fst (random held2Env 500 2001
                           (snd (millis held2Env
                                   (roundStart (resetGame initState)))))))
                (snd (random held2Env 500 2001
                        (snd (millis held2Env
                                (roundStart (resetGame initState)))))))
    as K.
  cbv zeta in K. destruct K as [_ [K _]].
  specialize (K (resetGame initState) [1%nat; 2%nat]
                (countdownAt_enter held2Env 0%nat [1%nat; 2%nat]
                   (roundStart (resetGame initState)))
                ltac:(vm_compute; reflexivity)
                ltac:(right; vm_compute; reflexivity)).
  assert (Hhold : ulong_sub (fst (millis held2Env (resetGame initState))) 0
                  < 500) by (vm_compute; reflexivity).
  assert (Hlatch :
            fst (fst (pollButtons held2Env (countdownLabel 0)
                        (snd (millis held2Env (resetGame initState))))) = true
            \/
            snd (fst (pollButtons held2Env (countdownLabel 0)
                        (snd (millis held2Env (resetGame initState))))) = true)
    by (right; vm_compute; reflexivity).
  specialize (H Hhold Hlatch).
  change (fst (fst (pollButtons held2Env (countdownLabel 0)
                      (snd (millis held2Env (resetGame initState))))))
    with false in H.
  destruct H as [H1 [H2 [H3 [H4 _]]]].
  assert (Hc : countdownFor 1 held2Env ledIndices
                 (roundStart (resetGame initState))
               = Ok (Some Player2EarlyPress)
                   (stateOf (countdownFor 1 held2Env ledIndices
                               (roundStart (resetGame initState)))))
    by (vm_compute; reflexivity).
  assert (Hb : roundBody 1 held2Env (resetGame initState)
               = Ok Player2EarlyPress
                   (stateOf (roundBody 1 held2Env (resetGame initState))))
    by (vm_compute; reflexivity).
  cbv zeta. split; [ | split; [ | split; [ | split ] ] ].
  - split; [ exact H1 | split; [ exact H2 | split; assumption ] ].
  - exact K.
  - exact (proj1 (B1 Player2EarlyPress _ Hc)).
  - exact (proj1 (proj2 (B2 Player2EarlyPress _ Hb eq_refl))).
  - exact U.
Defined.

(** The re-entry does advance the round count: after an early press in
    round 1, which leaves the count at 1, the re-entered round procedure has
    taken it to 2 where it first stops. *)
Lemma early_press_reentry_counterexample :
  let s1 := stateOf (roundBody 1 heldEnv
                       (emit Enter_playRound (resetGame initState))) in
  roundBody 1 heldEnv (emit Enter_playRound (resetGame initState))
    = Ok Player1EarlyPress s1 /\
  roundCount s1 = 1 /\
  roundCount (stateOf (playRound 1 heldEnv s1)) = 2.
Proof. by_evaluation. Qed.

Lemma early_press_reentry_counts_next_round_witness :
  let s1 := stateOf (roundBody 1 heldEnv
                       (emit Enter_playRound (resetGame initState))) in
  roundCount s1 = roundCount (resetGame initState) + 1 /\
  roundCount (stateOf (playRound 1 heldEnv s1)) = roundCount s1 + 1.
Proof.
  cbv zeta.
  assert (Hrc : 0 <= roundCount (emit Enter_playRound (resetGame initState))
                < maxRounds) by (vm_compute; split; [ discriminate | reflexivity ]).
  assert (Hb : roundBody 1 heldEnv (emit Enter_playRound (resetGame initState))
               = Ok Player1EarlyPress
                   (stateOf (roundBody 1 heldEnv
                               (emit Enter_playRound (resetGame initState)))))
    by (vm_compute; reflexivity).
  destruct (early_press_reentry_counts_next_round 1 heldEnv _ _ _ Hrc Hb
              eq_refl) as [H1 [_ [H3 _]]].
  split; [ exact H1 | ].
  apply H3. vm_compute. reflexivity.
Defined.

Lemma reaction_simultaneous_goes_to_player1_witness :
  (exists s',
     reactionWhile 1 heldEnv (resetGame initState) = Ok Player1Reacted s' /\
     scored1 (resetGame initState) s') /\
  scored2 (resetGame initState)
    (stateOf (reactionWhile 1 held2Env (resetGame initState))).
Proof.
  split.
  - pose proof (reaction_simultaneous_goes_to_player1 0 heldEnv
                  (resetGame initState)) as H.
    cbv zeta in H. destruct H as [H _].
    assert (H1 : fst (fst (pollButtons heldEnv "Reaction Phase - P1: "
                             (resetGame initState))) = true)
      by (vm_compute; reflexivity).
    assert (H2 : snd (fst (pollButtons heldEnv "Reaction Phase - P1: "
                             (resetGame initState))) = true)
      by (vm_compute; reflexivity).
    exact (ex_intro _ _ (H H1 H2)).
  - pose proof (reaction_simultaneous_goes_to_player1 1 held2Env
                  (resetGame initState)) as H.
    cbv zeta in H. destruct H as [_ H].
    assert (Hr : reactionWhile 1 held2Env (resetGame initState)
                 = Ok Player2Reacted
                     (stateOf (reactionWhile 1 held2Env (resetGame initState))))
      by (vm_compute; reflexivity).
    destruct (H _ _ Hr) as [[E _]|[_ S2]]; [ discriminate E | exact S2 ].
Defined.

Lemma debounce_sample_keeps_latch_witness :
  fst (debounceTimes 3 heldEnv button1Pin HIGH false initState)
    = (HIGH, false) /\
  (pin_level heldEnv 0 button1Pin = HIGH /\
   pin_level heldEnv 1 button1Pin = HIGH).
Proof.
  split.
  - destruct (debounce_sample_keeps_latch heldEnv button1Pin HIGH false
                initState) as [H _].
    apply (H 3%nat). intros k _. reflexivity.
  - pose proof (debounce_sample_keeps_latch heldEnv button1Pin LOW false
                  initState) as [_ H].
    vm_compute in H. destruct H as [_ [_ H]].
    destruct (H eq_refl eq_refl) as [_ [_ [R1 R2]]].
    split; [ exact R1 | exact R2 ].
Defined.

Lemma five_rounds_never_tie_witness :
  player1Score (tapMatchAfter 5) + player2Score (tapMatchAfter 5) = 5 /\
  player1Score (tapMatchAfter 5) <> player2Score (tapMatchAfter 5).
Proof.
  assert (Hge : maxRounds <= roundCount (tapMatchAfter 5))
    by (vm_compute; discriminate).
  destruct (five_rounds_never_tie tapEnv 5 initState (tapMatchAfter 5)
              (tapMatch_rounds 5 ltac:(lia)) Hge) as [H1 [H2 _]].
  split; assumption.
Defined.


(** The bound on the nesting depth is reached: two matches played to their
    end in [tapEnv] go through depth [maxRounds] + 1. *)
Example nesting_bound_is_reached :
  peakDepth (log (stateOf (sketch 20 200 tapEnv))) = maxRounds + 1.
Proof. vm_compute. reflexivity. Qed.

(** * The rest of the sketch *)

(** ** debounceButton *)

Lemma debounceButton_stable : forall e pin lastState pressedFlag s,
  pin_level e (now s) pin = lastState ->
  debounceButton e pin lastState pressedFlag s
    = (pressedFlag, (lastState, pressedFlag), tick s).
Proof.
  intros e pin lastState pressedFlag s H.
  unfold debounceButton, digitalRead. rewrite H, eqb_reflx. reflexivity.
Qed.

Lemma debounceTimes_stable : forall n e pin lastState pressedFlag s,
  (forall k, (now s <= k)%nat -> pin_level e k pin = lastState) ->
  fst (debounceTimes n e pin lastState pressedFlag s)
    = (lastState, pressedFlag).
Proof.
  induction n as [|n IH]; intros e pin lastState pressedFlag s H;
    cbn [debounceTimes].
  - reflexivity.
  - rewrite debounceButton_stable by (apply H; lia).
    apply IH. intros k Hk. apply H. cbn [now tick set_now] in Hk. lia.
Qed.

(** X1.  A bounce is thrown away: when the pin reads off the stable state
    but is back on it after the settle delay, the sample changes neither
    the stable state nor the latch; it has cost two readings and one wait
    of [debounceDelay]. *)
Theorem debounce_rejects_glitch : forall e pin lastState pressedFlag s,
  pin_level e (now s) pin <> lastState ->
  pin_level e (S (now s)) pin = lastState ->
  debounceButton e pin lastState pressedFlag s
    = (pressedFlag, (lastState, pressedFlag),
       tick (delay debounceDelay (tick s))).
Proof.
  intros e pin lastState pressedFlag s H1 H2.
  unfold debounceButton, digitalRead.
  cbn [now tick delay emit set_now set_log].
  rewrite H2, eqb_reflx.
  destruct (eqb (pin_level e (now s) pin) lastState) eqn:E.
  - apply eqb_prop in E. contradiction.
  - reflexivity.
Qed.

Lemma debounce_rejects_glitch_witness :
  debounceButton glitchEnv button1Pin LOW false initState
    = (false, (LOW, false), tick (delay debounceDelay (tick initState))).
Proof.
  apply debounce_rejects_glitch.
  - vm_compute. discriminate.
  - reflexivity.
Defined.

(** X2.  What one sample costs and what it leaves alone: when the pin reads
    the stable state it has asked one question and written nothing; when
    the pin reads anything else it has asked two questions and written
    exactly one wait of [debounceDelay].  In both cases no global of the
    sketch is touched (the two reference parameters are all it changes). *)
Theorem debounce_sample_cost : forall e pin lastState pressedFlag s,
  let s' := snd (debounceButton e pin lastState pressedFlag s) in
  sameGlobals s s' /\
  ((pin_level e (now s) pin = lastState /\
    now s' = S (now s) /\ log s' = log s) \/
   (pin_level e (now s) pin <> lastState /\
    now s' = S (S (now s)) /\
    log s' = (log s ++ [Delay debounceDelay])%list)).
Proof.
  intros e pin lastState pressedFlag s. cbv zeta.
  unfold debounceButton, digitalRead.
  destruct (eqb (pin_level e (now s) pin) lastState) eqn:E1; cbn [negb].
  - apply eqb_prop in E1. split.
    + unfold sameGlobals. cbn. tauto.
    + left. cbn. tauto.
  - apply eqb_false_iff in E1.
    cbn [now tick delay emit set_now set_log].
    destruct (negb (eqb (pin_level e (S (now s)) pin) lastState)); split;
      try (unfold sameGlobals; cbn; tauto);
      right; cbn; tauto.
Qed.

(** X3.  A level that the pin holds through the samples is taken up by the
    first of them: after one or more samples the stable state is that
    level, and the latch is set if it was set before or if the level is
    HIGH and the stable state was LOW.  So a press that lasts is never
    missed, a release never latches, and holding on adds nothing. *)
Theorem debounce_commits_held_level :
  forall n e pin level lastState pressedFlag s,
  (forall k, (now s <= k)%nat -> pin_level e k pin = level) ->
  fst (debounceTimes (S n) e pin lastState pressedFlag s)
    = (level, pressedFlag || (level && negb lastState)).
Proof.
  intros n e pin level lastState pressedFlag s H.
  cbn [debounceTimes].
  destruct (Bool.bool_dec level lastState) as [E|E].
  - subst lastState.
    rewrite debounceButton_stable by (apply H; lia).
    rewrite debounceTimes_stable.
    + destruct level, pressedFlag; reflexivity.
    + intros k Hk. apply H. cbn [now tick set_now] in Hk. lia.
  - assert (R : debounceButton e pin lastState pressedFlag s
                = (pressedFlag || (level && negb lastState),
                   (level, pressedFlag || (level && negb lastState)),
                   tick (delay debounceDelay (tick s)))).
    { unfold debounceButton, digitalRead.
      cbn [now tick delay emit set_now set_log].
      rewrite (H (now s)), (H (S (now s))) by lia.
      destruct level, lastState, pressedFlag; try contradiction;
        try reflexivity; exfalso; apply E; reflexivity. }
    rewrite R. apply debounceTimes_stable.
    intros k Hk. apply H. cbn [now tick delay emit set_now set_log] in Hk. lia.
Qed.

Lemma debounce_commits_held_level_witness :
  fst (debounceTimes 4 heldEnv button1Pin LOW false initState) = (HIGH, true).
Proof.
  apply (debounce_commits_held_level 3 heldEnv button1Pin HIGH LOW false).
  intros k _. reflexivity.
Defined.

(** ** The wait for release in [loop] (lines 78-80) *)

Lemma sameGlobals_refl : forall s, sameGlobals s s.
Proof. intros s. unfold sameGlobals. tauto. Qed.

Lemma sameGlobals_trans : forall s1 s2 s3,
  sameGlobals s1 s2 -> sameGlobals s2 s3 -> sameGlobals s1 s3.
Proof.
  unfold sameGlobals. intros s1 s2 s3 H1 H2.
  destruct H1 as [A1 [A2 [A3 [A4 [A5 [A6 [A7 [A8 A9]]]]]]]].
  destruct H2 as [B1 [B2 [B3 [B4 [B5 [B6 [B7 [B8 B9]]]]]]]].
  repeat split; congruence.
Qed.

Lemma sameGlobals_tick : forall s, sameGlobals s (tick s).
Proof. intros s. unfold sameGlobals. cbn. tauto. Qed.

Lemma sameGlobals_emit : forall ev s, sameGlobals s (emit ev s).
Proof. intros ev s. unfold sameGlobals. cbn. tauto. Qed.

Lemma waitRelease_pass_held1 : forall f e s,
  pin_level e (now s) button1Pin = HIGH ->
  waitRelease (S f) e s = waitRelease f e (delay 10 (tick s)).
Proof.
  intros f e s R. cbn [waitRelease]. unfold digitalRead. rewrite R.
  reflexivity.
Qed.

Lemma waitRelease_pass_held2 : forall f e s,
  pin_level e (now s) button1Pin = LOW ->
  pin_level e (S (now s)) button2Pin = HIGH ->
  waitRelease (S f) e s = waitRelease f e (delay 10 (tick (tick s))).
Proof.
  intros f e s R1 R2. cbn [waitRelease]. unfold digitalRead. rewrite R1.
  cbn [eqb HIGH LOW now tick set_now]. rewrite R2. reflexivity.
Qed.

Lemma waitRelease_pass_released : forall f e s,
  pin_level e (now s) button1Pin = LOW ->
  pin_level e (S (now s)) button2Pin = LOW ->
  waitRelease (S f) e s = Ok tt (tick (tick s)).
Proof.
  intros f e s R1 R2. cbn [waitRelease]. unfold digitalRead. rewrite R1.
  cbn [eqb HIGH LOW now tick set_now]. rewrite R2. reflexivity.
Qed.

(** X4.  The wait comes to an end only on a pass in which button 1 and
    then button 2 both read LOW, and it has then written one wait of 10 ms
    for every pass before that one and nothing else: if the wait returns on
    its [j]+1-st pass (it returns when run for [j] + 1 passes and is still
    under way after [j]), its log has grown by exactly [j] waits of 10 ms,
    all of them written before the last pass.  Each of the [j] passes has
    read one pin or both.  No global is touched. *)
Theorem waitRelease_ends_on_release : forall fuel e s u s',
  waitRelease fuel e s = Ok u s' ->
  exists k j sj,
    (j < fuel)%nat /\
    waitRelease (S j) e s = Ok u s' /\
    waitRelease j e s = OutOfFuel sj /\
    log sj = (log s ++ repeat (Delay 10) j)%list /\
    log s' = (log s ++ repeat (Delay 10) j)%list /\
    now s' = S (S k) /\ (now s + j <= k <= now s + 2 * j)%nat /\
    pin_level e k button1Pin = LOW /\
    pin_level e (S k) button2Pin = LOW /\
    sameGlobals s s'.
Proof.
  induction fuel as [|f IH]; intros e s u s' H.
  - discriminate H.
  - destruct (pin_level e (now s) button1Pin) eqn:R1.
    + rewrite (waitRelease_pass_held1 f e s R1) in H.
      destruct (IH e _ u s' H)
        as [k [j [sj [Hj [Ho [Hf [Lj [Lg [N [K [P1 [P2 G]]]]]]]]]]]].
      exists k, (S j), sj.
      rewrite (waitRelease_pass_held1 (S j) e s R1).
      rewrite (waitRelease_pass_held1 j e s R1).
      cbn [now log tick delay emit set_now set_log] in K, Lj, Lg.
      rewrite <- app_assoc in Lj, Lg.
      refine (conj _ (conj Ho (conj Hf (conj Lj (conj Lg
                (conj N (conj _ (conj P1 (conj P2 _))))))))).
      * lia.
      * lia.
      * eapply sameGlobals_trans; [ | exact G ].
        eapply sameGlobals_trans;
          [ apply sameGlobals_tick | apply sameGlobals_emit ].
    + destruct (pin_level e (S (now s)) button2Pin) eqn:R2.
      * rewrite (waitRelease_pass_held2 f e s R1 R2) in H.
        destruct (IH e _ u s' H)
          as [k [j [sj [Hj [Ho [Hf [Lj [Lg [N [K [P1 [P2 G]]]]]]]]]]]].
        exists k, (S j), sj.
        rewrite (waitRelease_pass_held2 (S j) e s R1 R2).
        rewrite (waitRelease_pass_held2 j e s R1 R2).
        cbn [now log tick delay emit set_now set_log] in K, Lj, Lg.
        rewrite <- app_assoc in Lj, Lg.
        refine (conj _ (conj Ho (conj Hf (conj Lj (conj Lg
                  (conj N (conj _ (conj P1 (conj P2 _))))))))).
        -- lia.
        -- lia.
        -- eapply sameGlobals_trans; [ | exact G ].
           eapply sameGlobals_trans; [ apply sameGlobals_tick | ].
           eapply sameGlobals_trans;
             [ apply sameGlobals_tick | apply sameGlobals_emit ].
      * rewrite (waitRelease_pass_released f e s R1 R2) in H.
        destruct u. injection H as <-.
        exists (now s), O, s.
        rewrite (waitRelease_pass_released O e s R1 R2).
        cbn [waitRelease log now tick set_now repeat].
        rewrite app_nil_r.
        refine (conj _ (conj eq_refl (conj eq_refl (conj eq_refl
                  (conj eq_refl (conj eq_refl (conj _
                    (conj R1 (conj R2 _))))))))).
        -- lia.
        -- lia.
        -- eapply sameGlobals_trans; apply sameGlobals_tick.
Qed.

Lemma waitRelease_ends_on_release_witness :
  exists k j sj,
    (j < 10)%nat /\
    waitRelease (S j) letGoEnv initState
      = Ok tt (stateOf (waitRelease 10 letGoEnv initState)) /\
    waitRelease j letGoEnv initState = OutOfFuel sj /\
    log sj = (log initState ++ repeat (Delay 10) j)%list /\
    log (stateOf (waitRelease 10 letGoEnv initState))
      = (log initState ++ repeat (Delay 10) j)%list /\
    now (stateOf (waitRelease 10 letGoEnv initState)) = S (S k) /\
    (now initState + j <= k <= now initState + 2 * j)%nat /\
    pin_level letGoEnv k button1Pin = LOW /\
    pin_level letGoEnv (S k) button2Pin = LOW /\
    sameGlobals initState (stateOf (waitRelease 10 letGoEnv initState)).
Proof.
  apply (waitRelease_ends_on_release 10 letGoEnv initState tt).
  vm_compute. reflexivity.
Defined.

(** X5.  The wait does come to an end once the buttons are let go: if both
    pins read LOW from the [N]-th question on, [N] + 1 passes are enough. *)
Theorem waitRelease_returns_after_release : forall N e s,
  (forall k, (now s + N <= k)%nat ->
             pin_level e k button1Pin = LOW /\
             pin_level e k button2Pin = LOW) ->
  exists s', waitRelease (S N) e s = Ok tt s'.
Proof.
  induction N as [|N IH]; intros e s H; cbn [waitRelease];
    unfold digitalRead.
  - destruct (H (now s) ltac:(lia)) as [R1 _].
    destruct (H (now (tick s)) ltac:(cbn; lia)) as [_ R2].
    rewrite R1, R2. cbn [eqb HIGH LOW]. eexists. reflexivity.
  - destruct (pin_level e (now s) button1Pin); cbn [eqb HIGH].
    + apply IH. intros k Hk. apply H.
      cbn [now tick delay emit set_now set_log] in Hk. lia.
    + destruct (pin_level e (now (tick s)) button2Pin); cbn [eqb HIGH].
      * apply IH. intros k Hk. apply H.
        cbn [now tick delay emit set_now set_log] in Hk. lia.
      * eexists. reflexivity.
Qed.

Lemma waitRelease_returns_after_release_witness :
  exists s', waitRelease 7 letGoEnv initState = Ok tt s'.
Proof.
  apply (waitRelease_returns_after_release 6 letGoEnv initState).
  intros k Hk. cbn in Hk.
  assert (E : (k <? 6)%nat = false) by (apply Nat.ltb_ge; lia).
  unfold letGoEnv, pin_level, LOW. rewrite E. split; reflexivity.
Defined.

(** ** The display helpers (lines 218-238) *)

Lemma String_of_int_digit : forall z,
  0 <= z <= 9 -> String.length (String_of_int z) = 1%nat.
Proof.
  intros z Hz.
  assert (H : z = 0 \/ z = 1 \/ z = 2 \/ z = 3 \/ z = 4 \/
              z = 5 \/ z = 6 \/ z = 7 \/ z = 8 \/ z = 9) by lia.
  repeat (destruct H as [H|H]; [ subst z; reflexivity | ]).
  subst z. reflexivity.
Qed.

Lemma padding_short : forall message,
  Z.of_nat (String.length message) <= 16 ->
  uint8_wrap (padding message)
    = (16 - Z.of_nat (String.length message)) / 2.
Proof.
  intros message H. unfold uint8_wrap, padding, uint_wrap, int_wrap.
  change (2 ^ 16) with 65536. change (2 ^ 15) with 32768.
  change (2 ^ 8) with 256.
  pose proof (Zle_0_nat (String.length message)) as P.
  rewrite (Z.mod_small (Z.of_nat (String.length message))) by lia.
  rewrite (Z.mod_small (16 - Z.of_nat (String.length message))) by lia.
  rewrite Z.quot_div_nonneg by lia.
  pose proof (Z.div_mod (16 - Z.of_nat (String.length message)) 2
                ltac:(lia)) as D.
  pose proof (Z.mod_pos_bound (16 - Z.of_nat (String.length message)) 2
                ltac:(lia)) as M.
  rewrite (Z.mod_small (_ + 32768)) by lia.
  rewrite Z.mod_small by lia. lia.
Qed.

Lemma padding_long : forall message,
  16 < Z.of_nat (String.length message) < 2 ^ 16 ->
  uint8_wrap (padding message)
    = ((2 ^ 16 + 16 - Z.of_nat (String.length message)) / 2) mod 2 ^ 8.
Proof.
  intros message H. unfold uint8_wrap, padding, uint_wrap, int_wrap.
  change (2 ^ 16) with 65536 in *. change (2 ^ 15) with 32768.
  change (2 ^ 8) with 256.
  rewrite (Z.mod_small (Z.of_nat (String.length message))) by lia.
  replace ((16 - Z.of_nat (String.length message)) mod 65536)
    with (65536 + 16 - Z.of_nat (String.length message)).
  2:{ apply (Z.mod_unique _ _ (-1)); [ left; lia | lia ]. }
  rewrite Z.quot_div_nonneg by lia.
  pose proof (Z.div_mod (65536 + 16 - Z.of_nat (String.length message)) 2
                ltac:(lia)) as D.
  pose proof (Z.mod_pos_bound
                (65536 + 16 - Z.of_nat (String.length message)) 2
                ltac:(lia)) as M.
  rewrite (Z.mod_small (_ + 32768)) by lia.
  f_equal. lia.
Qed.

(** X6.  [updateDisplay] re-arms and clears the display, then prints the
    message on the first line, from the column that line 224 computes in
    unsigned arithmetic and [setCursor] takes as a [uint8_t], and repeats
    it on the serial line; no global is touched.  For a message of at most
    16 characters that column is (16 - length) / 2: it lies between 0 and
    8, the message ends within the 16 columns, and the margin to its right
    is the margin to its left or one more.  For a longer message the
    subtraction wraps around and the column is the low byte of
    (65552 - length) / 2, which is 255 for 17 characters: such a message is
    not centred. *)
Theorem updateDisplay_centres_message : forall message s,
  let len := Z.of_nat (String.length message) in
  let col := uint8_wrap (padding message) in
  log (updateDisplay message s)
    = (log s ++ [ LcdInit; LcdBacklight; LcdClear; LcdSetCursor col 0;
                  LcdPrint message;
                  SerialPrintln ("LCD Update: " ++ message) ])%list /\
  sameGlobals s (updateDisplay message s) /\
  (len <= 16 ->
   col = (16 - len) / 2 /\
   0 <= col <= 8 /\
   col + len <= 16 /\
   0 <= (16 - len - col) - col <= 1) /\
  (16 < len < 2 ^ 16 ->
   col = ((2 ^ 16 + 16 - len) / 2) mod 2 ^ 8 /\
   (len = 17 -> col = 255)).
Proof.
  intros message s len col.
  split; [ | split; [ | split ] ].
  - unfold updateDisplay. cbv zeta. state_cbn.
    repeat rewrite <- app_assoc. reflexivity.
  - unfold sameGlobals, updateDisplay. cbv zeta. state_cbn. tauto.
  - intros Hlen. subst col len. rewrite (padding_short message Hlen).
    pose proof (Zle_0_nat (String.length message)) as P.
    pose proof (Z.div_mod (16 - Z.of_nat (String.length message)) 2
                  ltac:(lia)) as D.
    pose proof (Z.mod_pos_bound (16 - Z.of_nat (String.length message)) 2
                  ltac:(lia)) as M.
    lia.
  - intros Hlen. subst col len. rewrite (padding_long message Hlen).
    split; [ reflexivity | ].
    intros E. rewrite E. reflexivity.
Qed.

Lemma updateDisplay_centres_message_witness :
  log (updateDisplay "Player 1 Won" initState)
    = [ LcdInit; LcdBacklight; LcdClear; LcdSetCursor 2 0;
        LcdPrint "Player 1 Won";
        SerialPrintln "LCD Update: Player 1 Won" ] /\
  (uint8_wrap (padding "Player 1 Won") = (16 - 12) / 2 /\
   0 <= uint8_wrap (padding "Player 1 Won") <= 8) /\
  uint8_wrap (padding "Player 1 Won!!!!!") = 255.
Proof.
  pose proof (updateDisplay_centres_message "Player 1 Won" initState) as H.
  pose proof (updateDisplay_centres_message "Player 1 Won!!!!!" initState)
    as K.
  cbv zeta in H, K.
  destruct H as [L [_ [C _]]]. destruct K as [_ [_ [_ W]]].
  split; [ exact L | split ].
  - destruct (C ltac:(vm_compute; discriminate)) as [C1 [C2 _]].
    split; [ exact C1 | exact C2 ].
  - exact (proj2 (W ltac:(vm_compute; split; reflexivity)) eq_refl).
Defined.

(** X7.  [displayScores] writes the two scores on the second line, player
    1's from column 0 and player 2's from column 8.  With scores from 0 to
    9 each is one character after its three-character label, so the first
    field ends before column 8 and the second within the 16 columns.  No
    global is touched. *)
Theorem displayScores_layout : forall s,
  0 <= player1Score s <= 9 ->
  0 <= player2Score s <= 9 ->
  let d1 := String_of_int (player1Score s) in
  let d2 := String_of_int (player2Score s) in
  log (displayScores s)
    = (log s ++ [ LcdSetCursor 0 1; LcdPrint "P1:"; LcdPrint d1;
                  LcdSetCursor 8 1; LcdPrint "P2:"; LcdPrint d2;
                  SerialPrintln ("LCD Scores: P1:" ++ d1 ++ " P2:" ++ d2) ])%list /\
  0 + Z.of_nat (String.length "P1:") + Z.of_nat (String.length d1) <= 8 /\
  8 + Z.of_nat (String.length "P2:") + Z.of_nat (String.length d2) <= 16 /\
  sameGlobals s (displayScores s).
Proof.
  intros s H1 H2 d1 d2. subst d1 d2.
  rewrite (String_of_int_digit _ H1), (String_of_int_digit _ H2).
  split; [ | split; [ | split ] ].
  - unfold displayScores. cbv zeta. state_cbn.
    repeat rewrite <- app_assoc. reflexivity.
  - cbn. lia.
  - cbn. lia.
  - unfold sameGlobals, displayScores. cbv zeta. state_cbn. tauto.
Qed.

Lemma displayScores_layout_witness :
  sameGlobals (tapMatchAfter 5) (displayScores (tapMatchAfter 5)).
Proof.
  apply (displayScores_layout (tapMatchAfter 5));
    vm_compute; split; discriminate.
Defined.

(** ** What is written between two states *)

Lemma logged_refl : forall P s, logged P s s.
Proof.
  intros P s. exists []. split; [ symmetry; apply app_nil_r | reflexivity ].
Qed.

Lemma logged_trans : forall P s1 s2 s3,
  logged P s1 s2 -> logged P s2 s3 -> logged P s1 s3.
Proof.
  intros P s1 s2 s3 [l1 [E1 F1]] [l2 [E2 F2]].
  exists (l1 ++ l2)%list. split.
  - rewrite E2, E1, app_assoc. reflexivity.
  - rewrite forallb_app, F1, F2. reflexivity.
Qed.

Lemma logged_exact : forall P s s' evs,
  log s' = (log s ++ evs)%list -> forallb P evs = true -> logged P s s'.
Proof. intros P s s' evs E F. exists evs. split; assumption. Qed.

Lemma logged_same : forall P s s', log s' = log s -> logged P s s'.
Proof.
  intros P s s' E. exists []. split; [ | reflexivity ].
  rewrite app_nil_r. exact E.
Qed.

Lemma logged_weaken : forall (P Q : Event -> bool) s s',
  (forall ev, P ev = true -> Q ev = true) ->
  logged P s s' -> logged Q s s'.
Proof.
  intros P Q s s' H [evs [E F]]. exists evs. split; [ exact E | ].
  rewrite forallb_forall in *. intros ev Hin. apply H, F, Hin.
Qed.

Lemma plainEvent_ioAllowed : forall ev,
  plainEvent ev = true -> ioAllowed ev = true.
Proof. intros [] H; try exact H; discriminate H. Qed.




(** Computes the log of a straight-line pipeline. *)
Ltac log_pipeline :=
  cbv zeta; state_cbn; repeat rewrite <- app_assoc.

Lemma log_updateDisplay : forall m s,
  log (updateDisplay m s)
    = (log s ++ [ LcdInit; LcdBacklight; LcdClear;
                  LcdSetCursor (uint8_wrap (padding m)) 0;
                  LcdPrint m; SerialPrintln ("LCD Update: " ++ m) ])%list.
Proof. intros. unfold updateDisplay. log_pipeline. reflexivity. Qed.

Lemma log_displayScores : forall s,
  log (displayScores s) = (log s ++ scoreEvents s)%list.
Proof.
  intros. unfold displayScores, scoreEvents. log_pipeline. reflexivity.
Qed.

Lemma logged_debounceButton : forall e pin l p s,
  logged plainEvent s (snd (debounceButton e pin l p s)).
Proof.
  intros. unfold debounceButton, digitalRead.
  destruct (negb (eqb (pin_level e (now s) pin) l)).
  - cbn [now tick delay emit set_now set_log].
    destruct (negb (eqb (pin_level e (S (now s)) pin) l));
      apply (logged_exact _ _ _ [Delay debounceDelay]); reflexivity.
  - apply logged_same. reflexivity.
Qed.

Lemma logged_debounceButton1 : forall e s,
  logged plainEvent s (snd (debounceButton1 e s)).
Proof.
  intros e s. unfold debounceButton1.
  pose proof (logged_debounceButton e button1Pin (lastButton1State s)
                (button1Pressed s) s) as H.
  destruct (debounceButton _ _ _ _ _) as [[r [l p]] s1]. cbn [snd] in *.
  eapply logged_trans; [ exact H | apply logged_same; reflexivity ].
Qed.

Lemma logged_debounceButton2 : forall e s,
  logged plainEvent s (snd (debounceButton2 e s)).
Proof.
  intros e s. unfold debounceButton2.
  pose proof (logged_debounceButton e button2Pin (lastButton2State s)
                (button2Pressed s) s) as H.
  destruct (debounceButton _ _ _ _ _) as [[r [l p]] s1]. cbn [snd] in *.
  eapply logged_trans; [ exact H | apply logged_same; reflexivity ].
Qed.

Lemma logged_printButtonStates : forall e label b1 b2 s,
  logged plainEvent s (printButtonStates e label b1 b2 s).
Proof.
  intros. unfold printButtonStates, millis. cbn [fst snd].
  match goal with |- context [if ?c then _ else _] => destruct c end.
  - eapply logged_exact; [ log_pipeline; reflexivity | reflexivity ].
  - apply logged_same. reflexivity.
Qed.

Lemma logged_pollButtons : forall e label s,
  logged plainEvent s (snd (pollButtons e label s)).
Proof.
  intros e label s. unfold pollButtons.
  pose proof (logged_debounceButton1 e s) as H1.
  destruct (debounceButton1 e s) as [b1 s1]. cbn [snd] in H1.
  pose proof (logged_debounceButton2 e s1) as H2.
  destruct (debounceButton2 e s1) as [b2 s2]. cbn [snd] in *.
  eapply logged_trans; [ exact H1 | ].
  eapply logged_trans; [ exact H2 | apply logged_printButtonStates ].
Qed.

Lemma logged_roundEnd : forall o s, logged plainEvent s (roundEnd o s).
Proof.
  intros o s.
  destruct o; unfold roundEnd, earlyPress1, earlyPress2, reactionWin1,
    reactionWin2, roundHold;
    (eapply logged_exact;
     [ cbv zeta; rewrite ?log_displayScores; state_cbn;
       rewrite ?log_displayScores, ?log_updateDisplay; state_cbn;
       repeat rewrite <- app_assoc; reflexivity
     | reflexivity ]).
Qed.

Lemma logged_millis : forall P e s, logged P s (snd (millis e s)).
Proof. intros. apply logged_same. reflexivity. Qed.

Lemma logged_random : forall P e lo hi s, logged P s (snd (random e lo hi s)).
Proof.
  intros. unfold random. destruct (hi <=? lo); apply logged_same; reflexivity.
Qed.

Lemma logged_countdownWhile : forall fuel e i startTime delayTime s,
  logged plainEvent s
    (stateOf (countdownWhile fuel e i startTime delayTime s)).
Proof.
  induction fuel as [|f IH]; intros e i startTime delayTime s;
    cbn [countdownWhile].
  - apply logged_refl.
  - pose proof (logged_millis plainEvent e s) as Hm.
    destruct (millis e s) as [t s1]. cbn [snd] in Hm.
    destruct (ulong_sub t startTime <? delayTime); [ | exact Hm ].
    pose proof (logged_pollButtons e (countdownLabel i) s1) as Hp.
    destruct (pollButtons e (countdownLabel i) s1) as [[b1 b2] s2].
    cbn [snd] in Hp.
    assert (H : logged plainEvent s s2) by (eapply logged_trans; eassumption).
    destruct b1; [ | destruct b2 ]; cbn [stateOf].
    + eapply logged_trans;
        [ exact H | apply (logged_roundEnd Player1EarlyPress) ].
    + eapply logged_trans;
        [ exact H | apply (logged_roundEnd Player2EarlyPress) ].
    + eapply logged_trans; [ exact H | apply IH ].
Qed.

Lemma logged_reactionWhile : forall fuel e s,
  logged plainEvent s (stateOf (reactionWhile fuel e s)).
Proof.
  induction fuel as [|f IH]; intros e s; cbn [reactionWhile].
  - apply logged_refl.
  - pose proof (logged_pollButtons e "Reaction Phase - P1: " s) as Hp.
    destruct (pollButtons e "Reaction Phase - P1: " s) as [[b1 b2] s2].
    cbn [snd] in Hp.
    destruct b1; [ | destruct b2 ]; cbn [stateOf].
    + eapply logged_trans; [ exact Hp | ].
      unfold reactionWin1. eapply logged_exact;
        [ log_pipeline; reflexivity | reflexivity ].
    + eapply logged_trans; [ exact Hp | ].
      unfold reactionWin2. eapply logged_exact;
        [ log_pipeline; reflexivity | reflexivity ].
    + eapply logged_trans; [ exact Hp | apply IH ].
Qed.

Lemma logged_roundHold : forall s, logged plainEvent s (roundHold s).
Proof.
  intros s. unfold roundHold.
  eapply logged_exact; [ log_pipeline; reflexivity | reflexivity ].
Qed.

(** ** The LEDs over a round *)





(** ** The two polling loops of a round *)

Lemma debounceButton1_channels : forall e s,
  let r := debounceButton1 e s in
  (button1Pressed s = true -> button1Pressed (snd r) = true) /\
  button2Pressed (snd r) = button2Pressed s /\
  lastButton2State (snd r) = lastButton2State s /\
  (now s < now (snd r))%nat.
Proof.
  intros e s. cbv zeta. unfold debounceButton1, debounceButton, digitalRead.
  destruct (negb (eqb (pin_level e (now s) button1Pin) (lastButton1State s))).
  - cbn [now tick delay emit set_now set_log].
    destruct (negb (eqb (pin_level e (S (now s)) button1Pin)
                      (lastButton1State s))).
    + destruct (pin_level e (S (now s)) button1Pin); cbn;
        repeat split; auto; lia.
    + cbn. repeat split; auto; lia.
  - cbn. repeat split; auto; lia.
Qed.

Lemma debounceButton2_channels : forall e s,
  let r := debounceButton2 e s in
  (button2Pressed s = true -> button2Pressed (snd r) = true) /\
  button1Pressed (snd r) = button1Pressed s /\
  lastButton1State (snd r) = lastButton1State s /\
  (now s < now (snd r))%nat.
Proof.
  intros e s. cbv zeta. unfold debounceButton2, debounceButton, digitalRead.
  destruct (negb (eqb (pin_level e (now s) button2Pin) (lastButton2State s))).
  - cbn [now tick delay emit set_now set_log].
    destruct (negb (eqb (pin_level e (S (now s)) button2Pin)
                      (lastButton2State s))).
    + destruct (pin_level e (S (now s)) button2Pin); cbn;
        repeat split; auto; lia.
    + cbn. repeat split; auto; lia.
  - cbn. repeat split; auto; lia.
Qed.

Lemma printButtonStates_now : forall e label b1 b2 s,
  (now s < now (printButtonStates e label b1 b2 s))%nat.
Proof.
  intros. unfold printButtonStates, millis. cbn [fst snd].
  match goal with |- context [if ?c then _ else _] => destruct c end;
    cbn; lia.
Qed.

(** A poll never clears a latch, and never goes back in the questions. *)
Lemma pollButtons_keeps_latches : forall e label s,
  (button1Pressed s = true ->
   button1Pressed (snd (pollButtons e label s)) = true) /\
  (button2Pressed s = true ->
   button2Pressed (snd (pollButtons e label s)) = true) /\
  (now s < now (snd (pollButtons e label s)))%nat.
Proof.
  intros e label s. unfold pollButtons.
  pose proof (debounceButton1_channels e s) as C1. cbv zeta in C1.
  destruct (debounceButton1 e s) as [b1 s1]. cbn [snd] in C1.
  destruct C1 as [K1 [E12 [_ N1]]].
  pose proof (debounceButton2_channels e s1) as C2. cbv zeta in C2.
  destruct (debounceButton2 e s1) as [b2 s2]. cbn [snd] in C2.
  destruct C2 as [K2 [E21 [_ N2]]].
  pose proof (printButtonStates_globals e label b1 b2 s2) as G.
  cbv zeta in G. destruct G as [G1 [G2 _]].
  pose proof (printButtonStates_now e label b1 b2 s2) as N3.
  cbn [snd]. rewrite G1, G2, E21.
  split; [ exact K1 | split; [ | lia ] ].
  intros H. apply K2. rewrite E12. exact H.
Qed.

(** X11.  A hold of the countdown runs out only on a clock reading that is
    at least the drawn delay after the start of the hold (in 32-bit
    unsigned arithmetic), and it leaves both latches as they were: no press
    was found during it.  Only then does the countdown go on to switch
    the LED off. *)
Theorem countdown_hold_runs_out_on_time :
  forall fuel e i startTime delayTime s s',
  countdownWhile fuel e i startTime delayTime s = Ok None s' ->
  exists k,
    now s' = S k /\ (now s <= k)%nat /\
    delayTime <= ulong_sub (ulong_wrap (clock e k)) startTime /\
    button1Pressed s' = button1Pressed s /\
    button2Pressed s' = button2Pressed s.
Proof.
  induction fuel as [|f IH]; intros e i startTime delayTime s s' H.
  - discriminate H.
  - cbn [countdownWhile] in H. unfold millis in H.
    destruct (ulong_sub (ulong_wrap (clock e (now s))) startTime <? delayTime)
      eqn:T.
    + destruct (pollButtons e (countdownLabel i) (tick s)) as [[b1 b2] s2]
        eqn:P.
      destruct b1; [ discriminate H | ].
      destruct b2; [ discriminate H | ].
      destruct (IH _ _ _ _ _ _ H) as [k [N [L [D [L1 L2]]]]].
      pose proof (pollButtons_spec _ _ _ _ _ _ P) as [_ [B1 B2]].
      pose proof (pollButtons_keeps_latches e (countdownLabel i) (tick s))
        as [K1 [K2 M]].
      rewrite P in K1, K2, M. cbn [snd] in K1, K2, M.
      exists k. refine (conj N (conj _ (conj D (conj _ _)))).
      * cbn [now tick set_now] in M. lia.
      * rewrite L1.
        destruct (button1Pressed s) eqn:E; [ apply K1, E | congruence ].
      * rewrite L2.
        destruct (button2Pressed s) eqn:E; [ apply K2, E | congruence ].
    + injection H as <-. exists (now s).
      refine (conj eq_refl (conj (Nat.le_refl _) (conj _ (conj eq_refl eq_refl)))).
      apply Z.ltb_ge, T.
Qed.

Lemma countdown_hold_runs_out_on_time_witness :
  exists k,
    now (stateOf (countdownWhile 20 quietEnv 0 0 500 initState)) = S k /\
    500 <= ulong_sub (ulong_wrap (clock quietEnv k)) 0.
Proof.
  assert (H : countdownWhile 20 quietEnv 0 0 500 initState
              = Ok None (stateOf (countdownWhile 20 quietEnv 0 0 500 initState)))
    by (vm_compute; reflexivity).
  destruct (countdown_hold_runs_out_on_time _ _ _ _ _ _ _ H)
    as [k [N [_ [D _]]]].
  exists k. split; assumption.
Defined.

Lemma debounceButton1_stable : forall e s,
  pin_level e (now s) button1Pin = lastButton1State s ->
  debounceButton1 e s
    = (button1Pressed s,
       set_button1Pressed (button1Pressed s)
         (set_lastButton1State (lastButton1State s) (tick s))).
Proof.
  intros e s H. unfold debounceButton1.
  rewrite debounceButton_stable by exact H. reflexivity.
Qed.

Lemma debounceButton2_stable : forall e s,
  pin_level e (now s) button2Pin = lastButton2State s ->
  debounceButton2 e s
    = (button2Pressed s,
       set_button2Pressed (button2Pressed s)
         (set_lastButton2State (lastButton2State s) (tick s))).
Proof.
  intros e s H. unfold debounceButton2.
  rewrite debounceButton_stable by exact H. reflexivity.
Qed.

(** A poll on which both pins read the stable state of their button hands
    back the latches as they are and changes nothing about the buttons. *)
Lemma pollButtons_stable : forall e label s,
  pin_level e (now s) button1Pin = lastButton1State s ->
  pin_level e (S (now s)) button2Pin = lastButton2State s ->
  exists s',
    pollButtons e label s = (button1Pressed s, button2Pressed s, s') /\
    button1Pressed s' = button1Pressed s /\
    button2Pressed s' = button2Pressed s /\
    lastButton1State s' = lastButton1State s /\
    lastButton2State s' = lastButton2State s /\
    (now s < now s')%nat.
Proof.
  intros e label s H1 H2. unfold pollButtons.
  rewrite debounceButton1_stable by exact H1.
  rewrite debounceButton2_stable by exact H2.
  cbn [button2Pressed lastButton2State set_button1Pressed
       set_lastButton1State tick set_now].
  match goal with
  | |- context [printButtonStates e label ?b1 ?b2 ?x] =>
      pose proof (printButtonStates_globals e label b1 b2 x) as G;
      pose proof (printButtonStates_now e label b1 b2 x) as N;
      exists (printButtonStates e label b1 b2 x)
  end.
  cbv zeta in G. destruct G as [G1 [G2 [G3 G4]]].
  split; [ reflexivity | ].
  rewrite G1, G2, G3, G4. cbn in N |- *.
  repeat split; lia.
Qed.

(** X12.  The reaction phase has no way out but a press: with both latches
    clear, as long as each pin keeps reading the stable state of its button
    (nobody presses; a button held since before the round stays held), the
    loop goes on for as long as it is run, and the scores stay as they
    are. *)
Theorem reaction_phase_waits_for_a_press : forall fuel e s,
  button1Pressed s = false ->
  button2Pressed s = false ->
  (forall k, (now s <= k)%nat ->
     pin_level e k button1Pin = lastButton1State s /\
     pin_level e k button2Pin = lastButton2State s) ->
  exists s',
    reactionWhile fuel e s = OutOfFuel s' /\
    player1Score s' = player1Score s /\
    player2Score s' = player2Score s.
Proof.
  induction fuel as [|f IH]; intros e s B1 B2 H; cbn [reactionWhile].
  - exists s. repeat split.
  - destruct (H (now s) ltac:(lia)) as [R1 _].
    destruct (H (S (now s)) ltac:(lia)) as [_ R2].
    destruct (pollButtons_stable e "Reaction Phase - P1: " s R1 R2)
      as [s1 [P [L1 [L2 [S1 [S2 N]]]]]].
    pose proof (pollButtons_spec _ _ _ _ _ _ P) as [[F1 F2 _ _ _ _] _].
    rewrite P, B1, B2.
    destruct (IH e s1) as [s' [R [Q1 Q2]]].
    + congruence.
    + congruence.
    + intros k Hk. rewrite S1, S2. apply H. lia.
    + exists s'. split; [ exact R | split; congruence ].
Qed.

Lemma reaction_phase_waits_for_a_press_witness :
  exists s',
    reactionWhile 1000 quietEnv (resetGame initState) = OutOfFuel s' /\
    player1Score s' = 0 /\ player2Score s' = 0.
Proof.
  apply (reaction_phase_waits_for_a_press 1000 quietEnv (resetGame initState));
    try reflexivity.
  intros k _. split; reflexivity.
Defined.

(** ** The sketch as a whole: what it does to its surroundings *)

Lemma logged_io : forall s s', logged plainEvent s s' -> logged ioAllowed s s'.
Proof. intros s s'. apply logged_weaken, plainEvent_ioAllowed. Qed.

Lemma logged_roundStart : forall s, logged ioAllowed s (roundStart s).
Proof.
  intros s. unfold roundStart. cbv zeta.
  change ledIndices with [0; 1; 2]%nat. cbn [fold_left].
  eapply logged_exact; [ log_pipeline; reflexivity | reflexivity ].
Qed.

Lemma ledPin_allowed : forall i,
  (i < numLeds)%nat -> existsb (Z.eqb (ledPin i)) ledPins = true.
Proof.
  intros i Hi. unfold numLeds in Hi.
  destruct i as [|[|[|i]]]; try reflexivity. lia.
Qed.

Lemma logged_countdownFor : forall fuel e todo s,
  Forall (fun i => (i < numLeds)%nat) todo ->
  logged ioAllowed s (stateOf (countdownFor fuel e todo s)).
Proof.
  intros fuel e todo. induction todo as [|i rest IH]; intros s Hall;
    cbn [countdownFor].
  - apply logged_refl.
  - inversion Hall as [|? ? Hi Hrest]; subst.
    pose proof (logged_millis ioAllowed e s) as Hm.
    destruct (millis e s) as [startTime s1]. cbn [snd] in Hm.
    pose proof (logged_random ioAllowed e 500 2001 s1) as Hr.
    destruct (random e 500 2001 s1) as [delayTime s2]. cbn [snd] in Hr.
    pose proof (logged_io _ _ (logged_countdownWhile fuel e i startTime
                                 (ulong_wrap delayTime) s2)) as Hw.
    assert (H : logged ioAllowed s
                  (stateOf (countdownWhile fuel e i startTime
                              (ulong_wrap delayTime) s2))).
    { eapply logged_trans; [ exact Hm | ].
      eapply logged_trans; [ exact Hr | exact Hw ]. }
    destruct (countdownWhile fuel e i startTime (ulong_wrap delayTime) s2)
      as [[o|] s3|s3]; cbn [stateOf] in *; try exact H.
    eapply logged_trans; [ exact H | ].
    eapply logged_trans; [ | apply IH, Hrest ].
    eapply (logged_exact _ _ _
              [DigitalWrite (ledPin i) LOW;
               SerialPrintln ("LED " ++ String_of_int (Z.of_nat i + 1)
                              ++ " turned off")]).
    + log_pipeline. reflexivity.
    + cbn [forallb ioAllowed plainEvent]. rewrite (ledPin_allowed i Hi).
      reflexivity.
Qed.

Lemma logged_roundBody : forall fuel e s,
  logged ioAllowed s (stateOf (roundBody fuel e s)).
Proof.
  intros fuel e s. unfold roundBody. cbv zeta.
  pose proof (logged_roundStart s) as H0.
  assert (A : Forall (fun i => (i < numLeds)%nat) ledIndices)
    by (repeat constructor).
  pose proof (logged_countdownFor fuel e ledIndices (roundStart s) A) as Hc.
  destruct (countdownFor fuel e ledIndices (roundStart s)) as [[o|] s1|s1];
    cbn [stateOf] in *.
  - eapply logged_trans; eassumption.
  - pose proof (logged_io _ _ (logged_reactionWhile fuel e s1)) as Hr.
    destruct (reactionWhile fuel e s1) as [o s2|s2]; cbn [stateOf] in *.
    + eapply logged_trans; [ exact H0 | ].
      eapply logged_trans; [ exact Hc | ].
      eapply logged_trans; [ exact Hr | apply logged_io, logged_roundHold ].
    + eapply logged_trans; [ exact H0 | ].
      eapply logged_trans; [ exact Hc | exact Hr ].
  - eapply logged_trans; eassumption.
Qed.

Lemma logged_emit : forall (P : Event -> bool) ev s,
  P ev = true -> logged P s (emit ev s).
Proof.
  intros P ev s H. apply (logged_exact _ _ _ [ev]); [ reflexivity | ].
  cbn [forallb]. rewrite H. reflexivity.
Qed.

Lemma logged_endGame : forall s, logged ioAllowed s (endGame s).
Proof.
  intros s. apply (logged_exact _ _ _ (endGameEvents s)).
  - apply log_endGame.
  - reflexivity.
Qed.

Lemma logged_playRound : forall fuel e s,
  logged ioAllowed s (stateOf (playRound fuel e s)).
Proof.
  induction fuel as [|f IH]; intros e s.
  - apply logged_refl.
  - rewrite playRound_unfold.
    pose proof (logged_emit ioAllowed Enter_playRound s eq_refl) as H0.
    destruct (maxRounds <=? roundCount s).
    + cbn [stateOf]. eapply logged_trans; [ exact H0 | ].
      eapply logged_trans; [ apply logged_endGame | ].
      apply logged_emit. reflexivity.
    + pose proof (logged_roundBody f e (emit Enter_playRound s)) as Hb.
      destruct (roundBody f e (emit Enter_playRound s)) as [o s1|s1];
        cbn [stateOf] in *.
      * specialize (IH e s1).
        destruct (playRound f e s1) as [u s2|s2]; cbn [stateOf] in *.
        -- eapply logged_trans; [ exact H0 | ].
           eapply logged_trans; [ exact Hb | ].
           eapply logged_trans; [ exact IH | ].
           apply logged_emit. reflexivity.
        -- eapply logged_trans; [ exact H0 | ].
           eapply logged_trans; [ exact Hb | exact IH ].
      * eapply logged_trans; eassumption.
Qed.

Lemma logged_waitRelease : forall fuel e s,
  logged plainEvent s (stateOf (waitRelease fuel e s)).
Proof.
  induction fuel as [|f IH]; intros e s; cbn [waitRelease].
  - apply logged_refl.
  - unfold digitalRead.
    destruct (eqb (pin_level e (now s) button1Pin) HIGH).
    + eapply logged_trans; [ | apply IH ].
      apply (logged_exact _ _ _ [Delay 10]); reflexivity.
    + destruct (eqb (pin_level e (now (tick s)) button2Pin) HIGH).
      * eapply logged_trans; [ | apply IH ].
        apply (logged_exact _ _ _ [Delay 10]); reflexivity.
      * cbn [stateOf]. apply logged_same. reflexivity.
Qed.

Lemma logged_loop : forall fuel e s,
  logged ioAllowed s (stateOf (loop fuel e s)).
Proof.
  intros fuel e s. unfold loop.
  pose proof (logged_io _ _ (logged_pollButtons e "Main Loop - P1: " s)) as Hp.
  destruct (pollButtons e "Main Loop - P1: " s) as [[b1 b2] s1].
  cbn [snd] in Hp.
  destruct (startCondition s1 b1 b2); [ | exact Hp ].
  assert (Hb : logged ioAllowed s1 (beginGame s1)).
  { unfold beginGame.
    eapply logged_exact; [ log_pipeline; reflexivity | reflexivity ]. }
  pose proof (logged_io _ _ (logged_waitRelease fuel e (beginGame s1))) as Hw.
  assert (H : logged ioAllowed s
                (stateOf (waitRelease fuel e (beginGame s1)))).
  { eapply logged_trans; [ exact Hp | ].
    eapply logged_trans; [ exact Hb | exact Hw ]. }
  destruct (waitRelease fuel e (beginGame s1)) as [u s2|s2];
    cbn [stateOf] in *; [ | exact H ].
  unfold startNewGame.
  eapply logged_trans; [ exact H | ].
  eapply logged_trans; [ | apply logged_playRound ].
  apply logged_same. reflexivity.
Qed.

Lemma logged_loops : forall n fuel e s,
  logged ioAllowed s (stateOf (loops n fuel e s)).
Proof.
  induction n as [|n IH]; intros fuel e s; cbn [loops].
  - apply logged_refl.
  - pose proof (logged_loop fuel e s) as H.
    destruct (loop fuel e s) as [u s1|s1]; cbn [stateOf] in *.
    + eapply logged_trans; [ exact H | apply IH ].
    + exact H.
Qed.

(** X13.  Whatever the buttons, the clock and the random source do, and
    however long the sketch runs, it writes only to its three LED pins,
    sets up only those as outputs and only the two button pins as inputs,
    and never waits for anything but 10, 50, 2000 or 10000 ms at a time. *)
Theorem sketch_io_is_confined : forall n fuel e,
  forallb ioAllowed (log (stateOf (sketch n fuel e))) = true.
Proof.
  intros n fuel e. unfold sketch.
  destruct (logged_loops n fuel e (setup initState)) as [evs [E F]].
  rewrite E, forallb_app, F.
  assert (S0 : forallb ioAllowed (log (setup initState)) = true)
    by (vm_compute; reflexivity).
  rewrite S0. reflexivity.
Qed.

(** ** The sketch as a whole: its counters *)

Lemma gameInv_counters : forall s, gameInv s -> countersInRange s.
Proof.
  unfold gameInv, countersInRange, maxRounds. intros s H. lia.
Qed.

Lemma gameInv_same : forall s s',
  player1Score s' = player1Score s -> player2Score s' = player2Score s ->
  roundCount s' = roundCount s -> gameInv s -> gameInv s'.
Proof.
  unfold gameInv. intros s s' H1 H2 H3 H. rewrite H1, H2, H3. exact H.
Qed.

Lemma counters_emit : forall ev s,
  player1Score (emit ev s) = player1Score s /\
  player2Score (emit ev s) = player2Score s /\
  roundCount (emit ev s) = roundCount s /\
  gameActive (emit ev s) = gameActive s.
Proof. intros. repeat split. Qed.

Lemma gameInv_endGame_leave : forall s,
  gameInv s ->
  gameInv (emit Leave_playRound (endGame (emit Enter_playRound s))) /\
  roundCount (emit Leave_playRound (endGame (emit Enter_playRound s)))
    = roundCount s /\
  gameActive (emit Leave_playRound (endGame (emit Enter_playRound s)))
    = false.
Proof.
  intros s H.
  destruct (counters_emit Leave_playRound
              (endGame (emit Enter_playRound s))) as [A1 [A2 [A3 A4]]].
  destruct (endGame_spec (emit Enter_playRound s))
    as [E1 [E2 [E3 [E4 _]]]].
  destruct (counters_emit Enter_playRound s) as [B1 [B2 [B3 _]]].
  split; [ | split ].
  - apply (gameInv_same s); [ congruence | congruence | congruence | exact H ].
  - congruence.
  - congruence.
Qed.

Lemma playRound_counters : forall fuel e s,
  gameInv s ->
  match playRound fuel e s with
  | Ok _ s' =>
      gameInv s' /\ roundCount s' = maxRounds /\ gameActive s' = false
  | OutOfFuel s' => countersInRange s'
  end.
Proof.
  induction fuel as [|f IH]; intros e s I.
  - cbn [playRound]. apply gameInv_counters, I.
  - rewrite playRound_unfold.
    destruct (maxRounds <=? roundCount s) eqn:G.
    + destruct (gameInv_endGame_leave s I) as [J1 [J2 J3]].
      split; [ exact J1 | split; [ | exact J3 ] ].
      rewrite J2. apply Z.leb_le in G.
      destruct I as [_ [_ [_ I4]]]. lia.
    + apply Z.leb_gt in G.
      pose proof (roundBody_spec f e (emit Enter_playRound s)) as B.
      destruct (roundBody f e (emit Enter_playRound s)) as [o s1|s1] eqn:Hb.
      * destruct (round_step_inv f e s o s1 I G Hb) as [I1 _].
        specialize (IH e s1 I1).
        destruct (playRound f e s1) as [u s2|s2].
        -- destruct IH as [K1 [K2 K3]].
           destruct (counters_emit Leave_playRound s2) as [A1 [A2 [A3 A4]]].
           split; [ | split ].
           ++ apply (gameInv_same s2); assumption.
           ++ congruence.
           ++ congruence.
        -- exact IH.
      * destruct B as [B1 [B2 [B3 _]]].
        destruct (counters_emit Enter_playRound s) as [A1 [A2 [A3 _]]].
        rewrite A3 in B1. rewrite A1 in B2. rewrite A2 in B3.
        destruct I as [I1 [I2 [I3 I4]]]. unfold maxRounds in *.
        rewrite int_incr_small in B1 by lia.
        unfold countersInRange, maxRounds. lia.
Qed.

Lemma idleInv_frame : forall s s', frame s s' -> idleInv s -> idleInv s'.
Proof.
  intros s s' [F1 F2 F3 F4 _ _] [I [A R]].
  split; [ | split ].
  - apply (gameInv_same s); assumption.
  - congruence.
  - rewrite F3. exact R.
Qed.

Lemma loop_counters : forall fuel e s,
  idleInv s ->
  match loop fuel e s with
  | Ok _ s' => idleInv s'
  | OutOfFuel s' => countersInRange s'
  end.
Proof.
  intros fuel e s I. unfold loop.
  destruct (pollButtons e "Main Loop - P1: " s) as [[b1 b2] s1] eqn:P.
  apply pollButtons_spec in P. destruct P as [F _].
  pose proof (idleInv_frame _ _ F I) as I1.
  destruct (startCondition s1 b1 b2); [ | exact I1 ].
  pose proof (waitRelease_frame fuel e (beginGame s1)) as [W1 W2 W3 _ _ _].
  destruct I1 as [J _].
  assert (Jb : gameInv (beginGame s1))
    by (apply (gameInv_same s1);
        [ reflexivity | reflexivity | reflexivity | exact J ]).
  destruct (waitRelease fuel e (beginGame s1)) as [u s2|s2];
    cbn [stateOf] in *.
  - unfold startNewGame.
    pose proof (playRound_counters fuel e (resetGame s2)
                  (gameInv_resetGame s2)) as H.
    destruct (playRound fuel e (resetGame s2)) as [u' s3|s3]; [ | exact H ].
    destruct H as [H1 [H2 H3]].
    split; [ exact H1 | split; [ exact H3 | right; exact H2 ] ].
  - apply gameInv_counters, (gameInv_same (beginGame s1)); assumption.
Qed.

Lemma loops_counters : forall n fuel e s,
  idleInv s ->
  match loops n fuel e s with
  | Ok _ s' => idleInv s'
  | OutOfFuel s' => countersInRange s'
  end.
Proof.
  induction n as [|n IH]; intros fuel e s I; cbn [loops].
  - exact I.
  - pose proof (loop_counters fuel e s I) as L.
    destruct (loop fuel e s) as [u s1|s1]; [ apply IH, L | exact L ].
Qed.

Lemma idleInv_setup : idleInv (setup initState).
Proof.
  unfold idleInv, gameInv, maxRounds.
  change (player1Score (setup initState)) with 0.
  change (player2Score (setup initState)) with 0.
  change (roundCount (setup initState)) with 0.
  change (gameActive (setup initState)) with false.
  split; [ lia | split; [ reflexivity | left; reflexivity ] ].
Qed.

(** X8.  Wherever a run of the sketch ends, returned from its last pass of
    [loop] or cut off where its fuel ran out (in the wait for release, in a
    hold of the countdown, in the reaction phase or at a call of
    [playRound]), the counters are in range: both scores and the round
    count lie between 0 and [maxRounds], and the scores add up to the round
    count or, while a round is on its way, to one less.  The assignments of
    lines 107-109 are one step here ([resetGame]); the states between them,
    in which a score is reset and the round count is not yet, are not among
    those the statement speaks of. *)
Theorem sketch_counters_in_range : forall n fuel e,
  let s := stateOf (sketch n fuel e) in
  0 <= player1Score s <= maxRounds /\
  0 <= player2Score s <= maxRounds /\
  0 <= roundCount s <= maxRounds /\
  roundCount s - 1 <= player1Score s + player2Score s <= roundCount s.
Proof.
  intros n fuel e. cbv zeta. unfold sketch.
  pose proof (loops_counters n fuel e (setup initState) idleInv_setup) as H.
  assert (C : countersInRange (stateOf (loops n fuel e (setup initState)))).
  { destruct (loops n fuel e (setup initState)) as [u s|s]; cbn [stateOf].
    - destruct H as [I _]. apply gameInv_counters, I.
    - exact H. }
  unfold countersInRange, maxRounds in *. lia.
Qed.

(** X9.  Whenever the sketch is back between two passes of [loop], no match
    is active, and either no match has been played yet (all counters 0) or
    the last one was played to its end: the round count is [maxRounds], the
    scores add up to it and are kept until the next match starts. *)
Theorem sketch_idle_between_passes : forall n fuel e u s,
  sketch n fuel e = Ok u s ->
  gameActive s = false /\
  ((roundCount s = 0 /\ player1Score s = 0 /\ player2Score s = 0) \/
   (roundCount s = maxRounds /\
    player1Score s + player2Score s = maxRounds /\
    0 <= player1Score s /\ 0 <= player2Score s)).
Proof.
  intros n fuel e u s H. unfold sketch in H.
  pose proof (loops_counters n fuel e (setup initState) idleInv_setup) as L.
  rewrite H in L. destruct L as [[I1 [I2 [I3 I4]]] [A R]].
  split; [ exact A | ].
  destruct R as [R|R]; [ left | right ]; rewrite R in *; repeat split; lia.
Qed.

Lemma sketch_idle_between_passes_witness :
  gameActive (stateOf (sketch 20 200 tapEnv)) = false /\
  roundCount (stateOf (sketch 20 200 tapEnv)) = maxRounds.
Proof.
  assert (H : sketch 20 200 tapEnv = Ok tt (stateOf (sketch 20 200 tapEnv)))
    by (vm_compute; reflexivity).
  destruct (sketch_idle_between_passes _ _ _ _ _ H) as [A [[R _]|[R _]]].
  - exfalso. revert R. vm_compute. discriminate.
  - split; assumption.
Defined.

(** ** A button that is still down when a match ends *)

Lemma now_endGame : forall s, now (endGame s) = now s.
Proof. intros s. unfold endGame. cbv zeta. state_cbn. reflexivity. Qed.

Lemma debounceButton_press : forall e pin p s,
  pin_level e (now s) pin = HIGH ->
  pin_level e (S (now s)) pin = HIGH ->
  debounceButton e pin LOW p s
    = (true, (HIGH, true), tick (delay debounceDelay (tick s))).
Proof.
  intros e pin p s H1 H2. unfold debounceButton, digitalRead.
  cbn [now tick delay emit set_now set_log]. rewrite H1, H2. reflexivity.
Qed.

(** A poll that finds both buttons down, both stable states being LOW,
    latches both. *)
Lemma pollButtons_fresh_presses : forall e label s,
  lastButton1State s = LOW ->
  lastButton2State s = LOW ->
  pin_level e (now s) button1Pin = HIGH ->
  pin_level e (S (now s)) button1Pin = HIGH ->
  pin_level e (S (S (now s))) button2Pin = HIGH ->
  pin_level e (S (S (S (now s)))) button2Pin = HIGH ->
  fst (pollButtons e label s) = (true, true).
Proof.
  intros e label s L1 L2 A1 A2 B1 B2. unfold pollButtons, debounceButton1.
  rewrite L1, (debounceButton_press e button1Pin _ s A1 A2).
  unfold debounceButton2.
  cbn [lastButton2State button2Pressed set_button1Pressed
       set_lastButton1State tick delay emit set_now set_log].
  rewrite L2.
  rewrite debounceButton_press; [ reflexivity | exact B1 | exact B2 ].
Qed.

(** X14.  [endGame] sets both stable states to LOW whatever the buttons are
    doing.  So buttons that read HIGH on the first pass of [loop] after a
    match, held over from the match or not, are taken for two new presses,
    and that pass starts the next match. *)
Theorem held_buttons_restart_after_endGame : forall e s,
  pin_level e (now s) button1Pin = HIGH ->
  pin_level e (S (now s)) button1Pin = HIGH ->
  pin_level e (S (S (now s))) button2Pin = HIGH ->
  pin_level e (S (S (S (now s)))) button2Pin = HIGH ->
  let r := pollButtons e "Main Loop - P1: " (endGame s) in
  fst r = (true, true) /\
  startCondition (snd r) (fst (fst r)) (snd (fst r)) = true.
Proof.
  intros e s A1 A2 B1 B2 r. subst r.
  destruct (endGame_spec s) as [_ [_ [_ [G [_ [_ [L1 [L2 _]]]]]]]].
  assert (F : fst (pollButtons e "Main Loop - P1: " (endGame s))
              = (true, true)).
  { apply pollButtons_fresh_presses; rewrite ?now_endGame; assumption. }
  split; [ exact F | ].
  destruct (pollButtons e "Main Loop - P1: " (endGame s)) as [[b1 b2] s1]
    eqn:P.
  cbn [fst snd] in *. injection F as -> ->.
  apply pollButtons_spec in P. destruct P as [[_ _ _ F4 _ _] _].
  unfold startCondition. rewrite F4, G. reflexivity.
Qed.

Lemma held_buttons_restart_after_endGame_witness :
  let r := pollButtons heldEnv "Main Loop - P1: "
             (endGame (tapMatchAfter 5)) in
  startCondition (snd r) (fst (fst r)) (snd (fst r)) = true.
Proof.
  exact (proj2 (held_buttons_restart_after_endGame heldEnv (tapMatchAfter 5)
                  eq_refl eq_refl eq_refl eq_refl)).
Defined.

(** ** Rounds and passes in which nobody presses anew *)

Lemma calm_later : forall e s s',
  calm e s -> sameButtons s s' -> (now s <= now s')%nat -> calm e s'.
Proof.
  intros e s s' [B1 [B2 H]] [S1 [S2 [S3 S4]]] N.
  split; [ congruence | split; [ congruence | ] ].
  intros k Hk. rewrite S3, S4. apply H. lia.
Qed.

Lemma pollButtons_calm : forall e label s,
  calm e s ->
  exists s',
    pollButtons e label s = (false, false, s') /\
    calm e s' /\ frame s s'.
Proof.
  intros e label s C. pose proof C as [B1 [B2 H]].
  destruct (H (now s) ltac:(lia)) as [R1 _].
  destruct (H (S (now s)) ltac:(lia)) as [_ R2].
  destruct (pollButtons_stable e label s R1 R2)
    as [s' [P [L1 [L2 [S1 [S2 N]]]]]].
  exists s'. rewrite B1, B2 in P. split; [ exact P | split ].
  - apply (calm_later e s); [ exact C | | lia ].
    unfold sameButtons. tauto.
  - apply (pollButtons_spec _ _ _ _ _ _ P).
Qed.

Lemma countdownWhile_calm : forall fuel e i startTime delayTime s,
  calm e s ->
  match countdownWhile fuel e i startTime delayTime s with
  | Ok (Some _) _ => False
  | Ok None s' | OutOfFuel s' => calm e s' /\ frame s s'
  end.
Proof.
  induction fuel as [|f IH]; intros e i startTime delayTime s C;
    cbn [countdownWhile].
  - split; [ exact C | apply frame_refl ].
  - unfold millis.
    assert (C1 : calm e (tick s)).
    { apply (calm_later e s); [ exact C | | cbn; lia ].
      unfold sameButtons. cbn. tauto. }
    destruct (ulong_sub (ulong_wrap (clock e (now s))) startTime <? delayTime).
    + destruct (pollButtons_calm e (countdownLabel i) (tick s) C1)
        as [s1 [P [C2 F2]]].
      rewrite P.
      specialize (IH e i startTime delayTime s1 C2).
      destruct (countdownWhile f e i startTime delayTime s1)
        as [[o|] s'|s']; [ exact IH | | ];
        (destruct IH as [C3 F3]; split; [ exact C3 | ];
         eapply frame_trans; [ apply frame_tick | ];
         eapply frame_trans; eassumption).
    + split; [ exact C1 | apply frame_tick ].
Qed.

Lemma random_hold : forall e s,
  random e 500 2001 s = (500 + rng e (now s) mod (2001 - 500), tick s).
Proof. reflexivity. Qed.

Lemma countdownFor_calm : forall fuel e todo s,
  calm e s ->
  match countdownFor fuel e todo s with
  | Ok (Some _) _ => False
  | Ok None s' | OutOfFuel s' => calm e s' /\ frame s s'
  end.
Proof.
  intros fuel e todo. induction todo as [|i rest IH]; intros s C;
    cbn [countdownFor].
  - split; [ exact C | apply frame_refl ].
  - unfold millis. cbv beta iota. rewrite random_hold. cbv beta iota.
    assert (C2 : calm e (tick (tick s))).
    { apply (calm_later e s); [ exact C | | cbn; lia ].
      unfold sameButtons. cbn. tauto. }
    pose proof (countdownWhile_calm fuel e i (ulong_wrap (clock e (now s)))
                  (ulong_wrap (500 + rng e (now (tick s)) mod (2001 - 500)))
                  (tick (tick s)) C2) as W.
    destruct (countdownWhile fuel e i (ulong_wrap (clock e (now s)))
                (ulong_wrap (500 + rng e (now (tick s)) mod (2001 - 500)))
                (tick (tick s))) as [[o|] s1|s1]; [ exact W | | ].
    + destruct W as [C3 F3].
      assert (F : frame s s1).
      { eapply frame_trans; [ apply frame_tick | ].
        eapply frame_trans; [ apply frame_tick | exact F3 ]. }
      match goal with
      | |- context [countdownFor fuel e rest ?x] =>
          assert (C4 : calm e x)
            by (apply (calm_later e s1);
                [ exact C3 | unfold sameButtons; cbn; tauto | cbn; lia ]);
          assert (F4 : frame s1 x) by frame_chain;
          specialize (IH x C4);
          destruct (countdownFor fuel e rest x) as [[o|] s'|s']
      end; [ exact IH | | ];
        (destruct IH as [C5 F5]; split; [ exact C5 | ];
         eapply frame_trans; [ exact F | ];
         eapply frame_trans; eassumption).
    + destruct W as [C3 F3]. split; [ exact C3 | ].
      eapply frame_trans; [ apply frame_tick | ].
      eapply frame_trans; [ apply frame_tick | exact F3 ].
Qed.

Lemma reactionWhile_calm : forall fuel e s,
  calm e s ->
  exists s', reactionWhile fuel e s = OutOfFuel s' /\ frame s s'.
Proof.
  induction fuel as [|f IH]; intros e s C; cbn [reactionWhile].
  - exists s. split; [ reflexivity | apply frame_refl ].
  - destruct (pollButtons_calm e "Reaction Phase - P1: " s C)
      as [s1 [P [C1 F1]]].
    rewrite P. destruct (IH e s1 C1) as [s' [E F]].
    exists s'. split; [ exact E | eapply frame_trans; eassumption ].
Qed.

Lemma calm_roundStart : forall e s, calm e s -> calm e (roundStart s).
Proof.
  intros e s C. apply (calm_later e s); [ exact C | | ].
  - unfold sameButtons, roundStart. cbv zeta.
    change ledIndices with [0; 1; 2]%nat. cbn [fold_left]. state_cbn. tauto.
  - unfold roundStart. cbv zeta.
    change ledIndices with [0; 1; 2]%nat. cbn [fold_left]. state_cbn. lia.
Qed.

(** X16.  No round comes to an end unless somebody presses anew.  If both
    latches are clear when the round starts and each pin keeps reading the
    stable state of its button (a button held down since the round before
    stays down, a button that is up stays up), then the countdown is not
    cut short, the reaction phase finds no winner, and the round goes on
    for as long as it is run; it has counted itself once and given no
    point. *)
Theorem round_needs_a_fresh_press : forall fuel e s,
  calm e s ->
  exists s',
    roundBody fuel e s = OutOfFuel s' /\
    roundCount s' = int_incr (roundCount s) /\
    player1Score s' = player1Score s /\
    player2Score s' = player2Score s.
Proof.
  intros fuel e s C. unfold roundBody. cbv zeta.
  destruct (roundStart_spec s) as [R1 [R2 [R3 _]]].
  pose proof (countdownFor_calm fuel e ledIndices (roundStart s)
                (calm_roundStart e s C)) as W.
  destruct (countdownFor fuel e ledIndices (roundStart s))
    as [[o|] s1|s1]; [ contradiction | | ]; destruct W as [C1 F1].
  - destruct (reactionWhile_calm fuel e s1 C1) as [s2 [E2 F2]].
    rewrite E2. exists s2. split; [ reflexivity | ].
    destruct F1 as [A1 A2 A3 _ _ _]. destruct F2 as [B1 B2 B3 _ _ _].
    repeat split; congruence.
  - exists s1. split; [ reflexivity | ].
    destruct F1 as [A1 A2 A3 _ _ _]. repeat split; congruence.
Qed.

Lemma round_needs_a_fresh_press_witness :
  exists s',
    roundBody 500 quietEnv (resetGame initState) = OutOfFuel s' /\
    roundCount s' = int_incr (roundCount (resetGame initState)) /\
    player1Score s' = player1Score (resetGame initState) /\
    player2Score s' = player2Score (resetGame initState).
Proof.
  apply (round_needs_a_fresh_press 500 quietEnv (resetGame initState)).
  split; [ reflexivity | split; [ reflexivity | ] ].
  intros k _. split; reflexivity.
Defined.

(** ** One button alone *)

Lemma pollButtons_idle1 : forall e label s,
  idle1 e s ->
  exists b2 s',
    pollButtons e label s = (false, b2, s') /\ idle1 e s' /\ frame s s'.
Proof.
  intros e label s [B H].
  destruct (pollButtons e label s) as [[b1 b2] s'] eqn:P.
  pose proof P as Q. apply pollButtons_spec in Q. destruct Q as [F [Q1 _]].
  unfold pollButtons in P.
  rewrite (debounceButton1_stable e s (H (now s) (Nat.le_refl _))) in P.
  pose proof (debounceButton2_channels e
                (set_button1Pressed (button1Pressed s)
                   (set_lastButton1State (lastButton1State s) (tick s))))
    as C2.
  cbv zeta in C2.
  destruct (debounceButton2 e
              (set_button1Pressed (button1Pressed s)
                 (set_lastButton1State (lastButton1State s) (tick s))))
    as [c2 s2].
  cbn [snd button1Pressed lastButton1State set_button1Pressed
       set_lastButton1State tick set_now now] in C2.
  destruct C2 as [_ [E1 [E2 N2]]].
  pose proof (printButtonStates_globals e label (button1Pressed s) c2 s2) as G.
  cbv zeta in G. destruct G as [G1 [_ [G3 _]]].
  pose proof (printButtonStates_now e label (button1Pressed s) c2 s2) as N3.
  injection P as P1 P2 P3. subst s'.
  exists b2, (printButtonStates e label (button1Pressed s) c2 s2).
  split; [ congruence | split; [ | exact F ] ].
  split; [ congruence | ].
  intros k Hk. rewrite G3, E2. apply H. lia.
Qed.

Lemma pollButtons_idle2 : forall e label s,
  idle2 e s ->
  exists b1 s',
    pollButtons e label s = (b1, false, s') /\ idle2 e s' /\ frame s s'.
Proof.
  intros e label s [B H].
  destruct (pollButtons e label s) as [[b1 b2] s'] eqn:P.
  pose proof P as Q. apply pollButtons_spec in Q. destruct Q as [F _].
  unfold pollButtons in P.
  pose proof (debounceButton1_channels e s) as C1. cbv zeta in C1.
  destruct (debounceButton1 e s) as [c1 s1]. cbn [snd] in C1.
  destruct C1 as [_ [E1 [E2 N1]]].
  assert (R : pin_level e (now s1) button2Pin = lastButton2State s1)
    by (rewrite E2; apply H; lia).
  rewrite (debounceButton2_stable e s1 R) in P.
  pose proof (printButtonStates_globals e label c1 (button2Pressed s1)
                (set_button2Pressed (button2Pressed s1)
                   (set_lastButton2State (lastButton2State s1) (tick s1))))
    as G.
  cbv zeta in G. destruct G as [_ [G2 [_ G4]]].
  pose proof (printButtonStates_now e label c1 (button2Pressed s1)
                (set_button2Pressed (button2Pressed s1)
                   (set_lastButton2State (lastButton2State s1) (tick s1))))
    as N3.
  cbn [button2Pressed lastButton2State set_button2Pressed
       set_lastButton2State tick set_now now] in G2, G4, N3.
  injection P as P1 P2 P3. subst s'.
  exists b1, (printButtonStates e label c1 (button2Pressed s1)
                (set_button2Pressed (button2Pressed s1)
                   (set_lastButton2State (lastButton2State s1) (tick s1)))).
  split; [ congruence | split; [ | exact F ] ].
  split; [ congruence | ].
  intros k Hk. rewrite G4, E2. apply H. lia.
Qed.

Lemma loops_idle1 : forall n fuel e s,
  idle1 e s ->
  exists s', loops n fuel e s = Ok tt s' /\ idle1 e s' /\ frame s s'.
Proof.
  induction n as [|n IH]; intros fuel e s I; cbn [loops].
  - exists s. split; [ reflexivity | split; [ exact I | apply frame_refl ] ].
  - unfold loop.
    destruct (pollButtons_idle1 e "Main Loop - P1: " s I)
      as [b2 [s1 [P [I1 F1]]]].
    rewrite P. unfold startCondition.
    rewrite Bool.andb_false_r. cbn [andb].
    destruct (IH fuel e s1 I1) as [s' [L [I' F']]].
    exists s'. split; [ exact L | split; [ exact I' | ] ].
    eapply frame_trans; eassumption.
Qed.

Lemma loops_idle2 : forall n fuel e s,
  idle2 e s ->
  exists s', loops n fuel e s = Ok tt s' /\ idle2 e s' /\ frame s s'.
Proof.
  induction n as [|n IH]; intros fuel e s I; cbn [loops].
  - exists s. split; [ reflexivity | split; [ exact I | apply frame_refl ] ].
  - unfold loop.
    destruct (pollButtons_idle2 e "Main Loop - P1: " s I)
      as [b1 [s1 [P [I1 F1]]]].
    rewrite P. unfold startCondition.
    rewrite Bool.andb_false_r.
    destruct (IH fuel e s1 I1) as [s' [L [I' F']]].
    exists s'. split; [ exact L | split; [ exact I' | ] ].
    eapply frame_trans; eassumption.
Qed.

(** X15.  One button alone never starts a match.  If one of the two buttons
    is not pressed anew (its latch is clear and its pin keeps reading its
    stable state), then whatever the other button does, every pass of
    [loop] comes back without starting anything: any number of passes
    returns, on any fuel, with the scores, the round counter and
    [gameActive] as they were. *)
Theorem one_button_never_starts : forall n fuel e s,
  idle1 e s \/ idle2 e s ->
  exists s',
    loops n fuel e s = Ok tt s' /\
    gameActive s' = gameActive s /\
    roundCount s' = roundCount s /\
    player1Score s' = player1Score s /\
    player2Score s' = player2Score s.
Proof.
  intros n fuel e s [I|I].
  - destruct (loops_idle1 n fuel e s I) as [s' [L [_ F]]].
    exists s'. split; [ exact L | ].
    destruct F as [A1 A2 A3 A4 _ _]. tauto.
  - destruct (loops_idle2 n fuel e s I) as [s' [L [_ F]]].
    exists s'. split; [ exact L | ].
    destruct F as [A1 A2 A3 A4 _ _]. tauto.
Qed.

Lemma one_button_never_starts_witness :
  exists s',
    loops 40 0 soloEnv (setup initState) = Ok tt s' /\
    gameActive s' = gameActive (setup initState) /\
    roundCount s' = roundCount (setup initState) /\
    player1Score s' = player1Score (setup initState) /\
    player2Score s' = player2Score (setup initState).
Proof.
  apply (one_button_never_starts 40 0 soloEnv (setup initState)).
  right. split; [ reflexivity | ].
  intros k _. reflexivity.
Defined.
